(** * School enrollment statistics: a shallow embedding of [school_data.py]

    The development models the [SchoolStats] class of [school_data.py]:
    the name-to-code dictionary built by [__init__], the three-dimensional
    enrollment array filled by [create_enrollment_array], the resolution of a
    name or code by [get_school_index], and the two statistics methods.

    Conventions.
    - A pandas DataFrame is the list of its rows, in file order; a missing
      grade value (NaN) is [None].
    - A Python [dict] is an association list in insertion order: the order of
      its keys is observable ([list(self.school_codes.keys()).index]).
    - A numpy [int64] array is a nested list of [Z]; sums over it wrap around
      modulo [2^64] and a store outside the [int64] range raises.
    - A numpy [float64] is the rational number it stands for, [None]
      standing for [nan]. The conversion of an [int64], the addition and the
      division of [np.mean] and [np.median] round to the nearest float64 (53
      significant bits, ties to even), and the sum of [np.mean] is
      accumulated in the order of numpy's pairwise summation.
    - The two reductions that pandas performs on the table (the mean of a
      frame, the sum of a column) are the exact mean and sum of the values
      that are present. pandas accumulates in [int64] or in float64, in an
      order that depends on the layout of the frame; when the values are
      non-negative and their sum is below [2^53], every order gives the
      exact sum, and a property that depends on the value of the sum assumes
      so.
    - A Python exception is a value of [exn]; a method that may raise returns
      a [result]. [create_enrollment_array], which mutates [self], returns the
      new object together with the exception that interrupted it, if any.
    - The two [print] calls of [create_enrollment_array], [load_data] and
      [main] are input/output and are not modelled. *)

From stdpp Require Import base tactics option list numbers strings sorting.
From Stdlib Require Import ZArith QArith Qround Lia.

#[local] Set Warnings "-clear-no-such-hyp".

Local Open Scope Z_scope.

(** ** Exceptions and the error monad *)

Inductive exn :=
  | ValueError (msg : string)
  | TypeError (msg : string)
  | OverflowError (msg : string)
  | IndexError (msg : string)
  | KeyError (msg : string).

Inductive result (A : Type) :=
  | Ok (a : A)
  | Raise (e : exn).
Arguments Ok {A} a.
Arguments Raise {A} e.

Global Instance result_ret : MRet result := λ A a, Ok a.
Global Instance result_bind : MBind result := λ A B f m,
  match m with Ok a => f a | Raise e => Raise e end.
Global Instance result_fmap : FMap result := λ A B f m,
  match m with Ok a => Ok (f a) | Raise e => Raise e end.

(** ** The raw table *)

Record Row := mkRow {
  School_Name : string;
  School_Code : Z;
  School_Year : Z;
  Grade_10 : option Z;
  Grade_11 : option Z;
  Grade_12 : option Z
}.

Global Instance Row_eq_dec : EqDecision Row.
Proof. solve_decision. Defined.

Abbreviation DataFrame := (list Row).

(** The column labels ['Grade 10'], ['Grade 11'], ['Grade 12']. *)
Inductive grade := Grade10 | Grade11 | Grade12.

Global Instance grade_eq_dec : EqDecision grade.
Proof. solve_decision. Defined.

Definition grade_column (g : grade) (r : Row) : option Z :=
  match g with
  | Grade10 => Grade_10 r
  | Grade11 => Grade_11 r
  | Grade12 => Grade_12 r
  end.

(** [Series.unique()]: the distinct values in order of first appearance. *)
Definition unique_step {A} `{EqDecision A} (seen : list A) (x : A) : list A :=
  if decide (x ∈ seen) then seen else seen ++ [x].

Definition unique {A} `{EqDecision A} (l : list A) : list A :=
  foldl unique_step [] l.

(** ** Python dictionaries, in insertion order *)

Section dict.
Context {K V : Type} `{EqDecision K}.

Definition dict := list (K * V).

Definition dict_keys (d : dict) : list K := d.*1.

Definition dict_contains (d : dict) (k : K) : bool :=
  bool_decide (k ∈ dict_keys d).

(** [d[k] = v]: an existing key keeps its position and takes the new
    value; a new key goes to the end. *)
Fixpoint dict_setitem (d : dict) (k : K) (v : V) : dict :=
  match d with
  | [] => [(k, v)]
  | (k', v') :: d' =>
      if decide (k' = k) then (k', v) :: d' else (k', v') :: dict_setitem d' k v
  end.

(** [d[k]] *)
Fixpoint dict_getitem (d : dict) (k : K) : option V :=
  match d with
  | [] => None
  | (k', v') :: d' => if decide (k' = k) then Some v' else dict_getitem d' k
  end.
End dict.
Arguments dict : clear implicits.

(** ** numpy arrays of [int64] *)

Definition int64_min : Z := - 2 ^ 63.
Definition int64_max : Z := 2 ^ 63 - 1.

Definition in_int64 (z : Z) : Prop := int64_min ≤ z ≤ int64_max.

Global Instance in_int64_dec z : Decision (in_int64 z).
Proof. unfold in_int64. apply _. Defined.

(** Two's complement wrap-around of an [int64] accumulator. *)
Definition wrap64 (z : Z) : Z := (z + 2 ^ 63) `mod` 2 ^ 64 - 2 ^ 63.

(** [schools × years × grades] *)
Abbreviation matrix := (list (list Z)).
Abbreviation cube := (list (list (list Z))).

(** ** The object *)

Record SchoolStats := mkSchoolStats {
  data : DataFrame;
  enrollment_array : option cube;
  school_codes : dict string Z
}.

(** [__init__]: the dictionary comprehension over
    [zip(data['School Name'], data['School Code'])]. *)
Definition codes_step (d : dict string Z) (r : Row) : dict string Z :=
  dict_setitem d (School_Name r) (School_Code r).

Definition SchoolStats_init (data : DataFrame) : SchoolStats :=
  {| data := data;
     enrollment_array := None;
     school_codes := foldl codes_step [] data |}.

(** ** Resolving a school *)

(** The argument of [get_school_index]: [main] passes an [int] when the
    input is all digits and the string itself otherwise. *)
Inductive identifier :=
  | IdInt (code : Z)
  | IdStr (name : string).

Definition invalid_school : exn :=
  ValueError "You must enter a valid school name or code.".

(** [list.index] *)
Definition list_index {A} `{EqDecision A} (x : A) (l : list A) : result nat :=
  match list_find (λ y, y = x) l with
  | Some (i, _) => Ok i
  | None => Raise (ValueError "x is not in list")
  end.

(** The [school_name] that [get_school_index] looks up: for an [int],
    [next((name for name, code in items if code == identifier), None)]. *)
Definition resolved_name (self : SchoolStats) (ident : identifier) : option string :=
  match ident with
  | IdInt code => fst <$> head (filter (λ nc, nc.2 = code) (school_codes self))
  | IdStr name => Some name
  end.

Definition get_school_index (self : SchoolStats) (ident : identifier) : result nat :=
  match resolved_name self ident with
  | Some name =>
      if dict_contains (school_codes self) name
      then list_index name (dict_keys (school_codes self))
      else Raise invalid_school
  | None => Raise invalid_school
  end.

(** ** Indexing the array *)

(** [a[i, j, k]] *)
Definition getitem (a : cube) (i j k : nat) : option Z :=
  plane ← a !! i; row ← plane !! j; row !! k.

(** [a[i, j, k] = v]: numpy checks the index, then converts the Python
    integer to [int64]. *)
Definition setitem (a : cube) (i j k : nat) (v : Z) : result cube :=
  match getitem a i j k with
  | None => Raise (IndexError "index is out of bounds")
  | Some _ =>
      if decide (in_int64 v)
      then Ok (alter (alter (<[k := v]>) j) i a)
      else Raise (OverflowError "Python int too large to convert to C long")
  end.

(** [np.empty((n, m, p), dtype=int)]: an array of the given shape whose
    cells hold whatever the allocated memory held, here [junk]. *)
Definition np_empty (junk : nat → nat → nat → Z) (n m p : nat) : cube :=
  (λ i, (λ j, junk i j <$> seq 0 p) <$> seq 0 m) <$> seq 0 n.

(** ** Loops that mutate and may raise *)

Section for_loop.
Context {A S : Type}.

(** [for x in l: body]: the loop stops at the first exception and keeps
    the mutations made until then. *)
Fixpoint for_loop (body : A → S → S * option exn) (l : list A) (s : S)
    : S * option exn :=
  match l with
  | [] => (s, None)
  | x :: l' =>
      match body x s with
      | (s', None) => for_loop body l' s'
      | (s', Some e) => (s', Some e)
      end
  end.
End for_loop.

Definition enumerate {A} (l : list A) : list (nat * A) := imap pair l.

(** ** Building the array *)

Definition grades : list grade := [Grade10; Grade11; Grade12].

(** [self.data[(self.data['School Name'] == school) &
               (self.data['School Year'] == year)]] *)
Definition matching_rows (data : DataFrame) (school : string) (year : Z)
    : DataFrame :=
  filter (λ r, School_Name r = school ∧ School_Year r = year) data.

(** [... [grade]]: the grade column of the matching rows. *)
Definition select (data : DataFrame) (school : string) (year : Z) (g : grade)
    : list (option Z) :=
  grade_column g <$> matching_rows data school year.

(** [pd.isna(value).any()] *)
Definition isna_any (value : list (option Z)) : bool :=
  bool_decide (Exists (λ v, v = None) value).

(** [int(value)] on a Series: pandas converts a Series of exactly one
    element and refuses any other length. *)
Definition int_of_series (value : list (option Z)) : result Z :=
  match value with
  | [Some v] => Ok v
  | [None] => Raise (ValueError "cannot convert float NaN to integer")
  | _ => Raise (TypeError "cannot convert the series to <class 'int'>")
  end.

(** [int(value) if not pd.isna(value).any() else 0] *)
Definition cell_value (data : DataFrame) (school : string) (year : Z) (g : grade)
    : result Z :=
  let value := select data school year g in
  if isna_any value then Ok 0 else int_of_series value.

(** The body of the innermost loop. *)
Definition assign_cell (data : DataFrame) (i : nat) (school : string)
    (j : nat) (year : Z) (kg : nat * grade) (a : cube) : cube * option exn :=
  match cell_value data school year kg.2 ≫= setitem a i j kg.1 with
  | Ok a' => (a', None)
  | Raise e => (a, Some e)
  end.

Definition fill_array (data : DataFrame) (schools : list string) (years : list Z)
    : cube → cube * option exn :=
  for_loop (λ is_,
    for_loop (λ jy,
      for_loop (assign_cell data is_.1 is_.2 jy.1 jy.2) (enumerate grades))
      (enumerate years))
    (enumerate schools).

Definition create_enrollment_array (junk : nat → nat → nat → Z)
    (self : SchoolStats) : SchoolStats * option exn :=
  let schools := unique (School_Name <$> data self) in
  let years := unique (School_Year <$> data self) in
  let a0 := np_empty junk (length schools) (length years) (length grades) in
  let '(a, e) := fill_array (data self) schools years a0 in
  ({| data := data self;
      enrollment_array := Some a;
      school_codes := school_codes self |}, e).

(** What a caller observes of a run: the object once the method has
    returned, or the exception it raised. *)
Definition outcome {S} (r : S * option exn) : result S :=
  match r with
  | (s, None) => Ok s
  | (_, Some e) => Raise e
  end.

(** ** numpy reductions *)

Definition Zsum (l : list Z) : Z := foldr Z.add 0 l.

(** [np.sum] of an [int64] array: the accumulator is an [int64]. *)
Definition np_sum (l : list Z) : Z := foldl (λ acc x, wrap64 (acc + x)) 0 l.

Definition np_max (l : list Z) : result Z :=
  match l with
  | [] => Raise (ValueError
      "zero-size array to reduction operation maximum which has no identity")
  | x :: l' => Ok (foldl Z.max x l')
  end.

Definition np_min (l : list Z) : result Z :=
  match l with
  | [] => Raise (ValueError
      "zero-size array to reduction operation minimum which has no identity")
  | x :: l' => Ok (foldl Z.min x l')
  end.

(** ** float64 arithmetic

    A finite [float64] is given by its value, a rational number; [None]
    stands for [nan]. An operation returns the exact result rounded to the
    nearest number with 53 significant bits, ties to the even significand.
    The exponent range is not modelled: a sum of [int64] values and its
    quotient by a count stay far inside it. *)
Definition float := option Q.

(** The integer nearest to [p / q], ties to even, for [0 ≤ p]. *)
Definition rne (p : Z) (q : positive) : Z :=
  let fl := p / Z.pos q in
  match 2 * (p `mod` Z.pos q) ?= Z.pos q with
  | Lt => fl
  | Gt => fl + 1
  | Eq => if Z.even fl then fl else fl + 1
  end.

(** The exponent [b] with [2^b ≤ p / q < 2^(b+1)], for [0 < p]. *)
Definition binade (p : Z) (q : positive) : Z :=
  let k := Z.log2 p - Z.log2 (Z.pos q) in
  if decide (Z.pos q * 2 ^ Z.max k 0 ≤ p * 2 ^ Z.max (- k) 0) then k else k - 1.

(** The float64 nearest to [p / q], for [0 < p]: with [e] the exponent of
    the last of the 53 bits, [p / q / 2^e] is rounded to an integer. *)
Definition round_pos (p : Z) (q : positive) : Q :=
  let e := binade p q - 52 in
  let m := rne (p * 2 ^ Z.max (- e) 0) (q * Z.to_pos (2 ^ Z.max e 0)) in
  Qred (m * 2 ^ Z.max e 0 # Z.to_pos (2 ^ Z.max (- e) 0)).

Definition float64_round (x : Q) : Q :=
  match Qnum (Qred x) with
  | 0 => 0%Q
  | Z.pos p => round_pos (Z.pos p) (Qden (Qred x))
  | Z.neg p => (- round_pos (Z.pos p) (Qden (Qred x)))%Q
  end.

Definition float64_add (x y : Q) : Q := float64_round (x + y).

(** The cast of an [int64] to [float64]. *)
Definition float64_of_int (z : Z) : Q := float64_round (inject_Z z).

(** ** [np.add.reduce]

    numpy adds the elements of a buffer by pairwise summation: fewer than 8
    elements one after the other; up to 128 elements in 8 running sums, one
    for each position modulo 8, that are then added in pairs, the elements
    after the last full group of 8 coming last; more elements in two halves,
    the first of a size that is a multiple of 8. An array that has to be
    cast is reduced buffer by buffer. *)

Definition buffer_size : nat := (2 ^ 13)%nat.

Section add_reduce.
Context {A : Type} (add : A → A → A) (zero : A).

Definition sum_sequential (l : list A) : A := foldl add zero l.

Definition sum_lanes (l : list A) : A :=
  let rest := drop 8 l in
  let groups := (length rest / 8)%nat in
  let r :=
    foldl (zip_with add) (take 8 l) (reshape (replicate groups 8%nat) rest) in
  let res :=
    match r with
    | [r0; r1; r2; r3; r4; r5; r6; r7] =>
        add (add (add r0 r1) (add r2 r3)) (add (add r4 r5) (add r6 r7))
    | _ => zero
    end in
  foldl add res (drop (groups * 8) rest).

(** [depth] bounds the number of halvings; the length of the list is
    enough. *)
Fixpoint pairwise_sum (depth : nat) (l : list A) : A :=
  if decide (length l < 8)%nat then sum_sequential l
  else if decide (length l ≤ 128)%nat then sum_lanes l
  else match depth with
       | O => zero
       | S depth =>
           let n2 := (length l / 2 - (length l / 2) `mod` 8)%nat in
           add (pairwise_sum depth (take n2 l))
               (pairwise_sum depth (drop n2 l))
       end.

Definition buffers (l : list A) : list (list A) :=
  reshape
    (replicate (length l / buffer_size) buffer_size ++
     (if decide (length l `mod` buffer_size = 0)%nat then []
      else [(length l `mod` buffer_size)%nat]))
    l.

Definition add_reduce (l : list A) : A :=
  foldl (λ acc buffer, add acc (pairwise_sum (length buffer) buffer))
    zero (buffers l).
End add_reduce.

(** [np.mean] of an [int64] array: the elements are cast to [float64] and
    added in [float64], and the sum is divided by the number of elements;
    the mean of no element is [nan]. *)
Definition np_mean (l : list Z) : float :=
  match l with
  | [] => None
  | _ =>
      Some (float64_round
              (add_reduce float64_add 0%Q (float64_of_int <$> l) /
               inject_Z (Z.of_nat (length l))))
  end.

(** [np.floor]; the integral float is given by its value. *)
Definition np_floor (x : float) : option Z := Qfloor <$> x.

(** [int(x)] on a float: truncation toward zero. *)
Definition int_of_float (x : float) : result Z :=
  match x with
  | None => Raise (ValueError "cannot convert float NaN to integer")
  | Some q => Ok (Qnum q ÷ Z.pos (Qden q))
  end.

(** [np.median]: the array is partitioned so that the middle element (odd
    size) or the two middle elements (even size) are in their sorted place,
    and the mean of that slice is returned. The code calls it on non-empty
    arrays only. *)
Definition np_median (l : list Z) : float :=
  let part := merge_sort Z.le l in
  let index := (length part / 2)%nat in
  if decide (length part `mod` 2 = 1)%nat
  then np_mean (take 1 (drop index part))
  else np_mean (take 2 (drop (index - 1) part)).

(** [m[:, c]] on a two-dimensional array. *)
Definition column (m : matrix) (c : nat) : result (list Z) :=
  match mapM (.!! c) m with
  | Some col => Ok col
  | None => Raise (IndexError "index is out of bounds")
  end.

(** ** Statistics of one school *)

Definition no_enrollments : string := "No enrollments over 500".

Record SchoolRecord := mkSchoolRecord {
  school_name : string;
  school_code : Z;
  mean_grade_10 : option Z;
  mean_grade_11 : option Z;
  mean_grade_12 : option Z;
  highest_enrollment : Z;
  lowest_enrollment : Z;
  yearly_totals : list Z;
  total_enrollment : Z;
  mean_yearly_enrollment : option Z;
  enrollments_over_500 : list Z;
  (** an [int], or the string [no_enrollments] *)
  median_over_500 : Z + string
}.

(** [self.enrollment_array[index, :, :]] *)
Definition school_slice (self : SchoolStats) (index : nat) : result matrix :=
  match enrollment_array self with
  | None => Raise (TypeError "'NoneType' object is not subscriptable")
  | Some a =>
      match a !! index with
      | Some m => Ok m
      | None => Raise (IndexError "index is out of bounds")
      end
  end.

Definition calculate_school_stats (self : SchoolStats) (ident : identifier)
    : result SchoolRecord :=
  index ← get_school_index self ident;
  school_name ←
    match dict_keys (school_codes self) !! index with
    | Some name => Ok name
    | None => Raise (IndexError "list index out of range")
    end;
  school_code ←
    match dict_getitem (school_codes self) school_name with
    | Some code => Ok code
    | None => Raise (KeyError school_name)
    end;
  school_data ← school_slice self index;
  grade_10 ← column school_data 0;
  grade_11 ← column school_data 1;
  grade_12 ← column school_data 2;
  highest ← np_max (mjoin school_data);
  lowest ← np_min (mjoin school_data);
  let over_500 := filter (λ v, 500 < v) (mjoin school_data) in
  median ←
    (if decide (0 < length over_500)%nat
     then inl <$> int_of_float (np_median over_500)
     else Ok (inr no_enrollments));
  Ok {| school_name := school_name;
        school_code := school_code;
        mean_grade_10 := np_floor (np_mean grade_10);
        mean_grade_11 := np_floor (np_mean grade_11);
        mean_grade_12 := np_floor (np_mean grade_12);
        highest_enrollment := highest;
        lowest_enrollment := lowest;
        yearly_totals := np_sum <$> school_data;
        total_enrollment := np_sum (mjoin school_data);
        mean_yearly_enrollment := np_floor (np_mean (np_sum <$> school_data));
        enrollments_over_500 := over_500;
        median_over_500 := median |}.

(** ** Statistics of the whole table *)

Record GeneralRecord := mkGeneralRecord {
  mean_2013 : option Z;
  mean_2022 : option Z;
  total_graduating_2022 : Z;
  highest_overall : Z;
  lowest_overall : Z
}.

(** [self.data[self.data['School Year'] == year]] *)
Definition rows_of_year (data : DataFrame) (year : Z) : DataFrame :=
  filter (λ r, School_Year r = year) data.

(** The values of [rows[['Grade 10', 'Grade 11', 'Grade 12']]]. *)
Definition grade_values (rows : DataFrame) : list (option Z) :=
  r ← rows; [Grade_10 r; Grade_11 r; Grade_12 r].

(** pandas reductions skip missing values. *)
Definition present (values : list (option Z)) : list Z := omap id values.

(** [np.mean] of a DataFrame: pandas' mean over both axes, as the exact
    mean of the values that are present; [nan] when there is none. *)
Definition frame_mean (rows : DataFrame) : float :=
  match present (grade_values rows) with
  | [] => None
  | l => Some (Zsum l # Pos.of_nat (length l))
  end.

(** [np.sum] of a Series: pandas' sum, as the exact sum of the values that
    are present. *)
Definition series_sum (values : list (option Z)) : Z := Zsum (present values).

(** [calculate_general_stats] reads [self.data] and the array
    [create_enrollment_array] has assigned to [self.enrollment_array]. *)
Definition calculate_general_stats (data : DataFrame) (a : cube)
    : result GeneralRecord :=
  let m2013 := np_floor (frame_mean (rows_of_year data 2013)) in
  let m2022 := np_floor (frame_mean (rows_of_year data 2022)) in
  let graduating := series_sum (Grade_12 <$> rows_of_year data 2022) in
  highest ← np_max (mjoin (mjoin a));
  lowest ← np_min (mjoin (mjoin a));
  Ok {| mean_2013 := m2013;
        mean_2022 := m2022;
        total_graduating_2022 := graduating;
        highest_overall := highest;
        lowest_overall := lowest |}.

(** ** The loop nest of [create_enrollment_array], flattened *)

(** The shape of an array: the length of every row of every plane. *)
Definition shape (a : cube) : list (list nat) :=
  (λ plane : matrix, length <$> plane) <$> a.

(** One iteration of the innermost loop: the three loop indices with the
    school, year and grade they enumerate. *)
Definition iteration : Type := (nat * string) * ((nat * Z) * (nat * grade)).

Definition pos_i (t : iteration) : nat := t.1.1.
Definition pos_j (t : iteration) : nat := t.2.1.1.
Definition pos_k (t : iteration) : nat := t.2.2.1.

(** [t] writes the cell [(i, j, k)]. *)
Definition writes (t : iteration) (i j k : nat) : Prop :=
  pos_i t = i ∧ pos_j t = j ∧ pos_k t = k.

Global Instance writes_dec t i j k : Decision (writes t i j k).
Proof. unfold writes. apply _. Defined.

(** The right-hand side of the assignment at an iteration. *)
Definition value_at (data : DataFrame) (t : iteration) : result Z :=
  cell_value data t.1.2 t.2.1.2 t.2.2.2.

Definition cell_body (data : DataFrame) (t : iteration) : cube → cube * option exn :=
  assign_cell data t.1.1 t.1.2 t.2.1.1 t.2.1.2 t.2.2.

(** The iterations of the three nested loops, in execution order. *)
Definition iterations (schools : list string) (years : list Z) : list iteration :=
  is_ ← enumerate schools;
  pair is_ <$> (jy ← enumerate years; pair jy <$> enumerate grades).

(** ** The general statistics as the specification words them *)





(** ** Conditions on the table and sample tables *)

(** An identifier that names no row of the table: a name no row carries, or
    a code no row carries. *)
Definition matches_no_school (data : DataFrame) (ident : identifier) : Prop :=
  match ident with
  | IdInt code => code ∉ School_Code <$> data
  | IdStr name => name ∉ School_Name <$> data
  end.

(** Every school of the table has exactly one row for every year of the
    table. *)
Definition one_row_per_school_year (data : DataFrame) : Prop :=
  Forall (λ s, Forall (λ y, length (matching_rows data s y) = 1%nat)
                 (unique (School_Year <$> data)))
    (unique (School_Name <$> data)).

Definition fits_int64 (value : option Z) : Prop :=
  match value with
  | Some v => in_int64 v
  | None => True
  end.

Global Instance fits_int64_dec value : Decision (fits_int64 value).
Proof. destruct value; simpl; apply _. Defined.

(** Every grade value of the table that is present is in the [int64] range. *)
Definition grades_in_int64 (data : DataFrame) : Prop :=
  Forall (λ r, Forall (λ g, fits_int64 (grade_column g r)) grades) data.

(** The example table of the specification: one school, two years. *)
Definition lincoln : DataFrame :=
  [ mkRow "Lincoln" 100 2013 (Some 400) (Some 420) (Some 600);
    mkRow "Lincoln" 100 2014 (Some 450) None (Some 610) ].

(** Two schools with one year each: neither has a row for the year of the
    other. *)
Definition gap : DataFrame :=
  [ mkRow "Adams" 7 2013 (Some 10) (Some 20) (Some 30);
    mkRow "Baker" 8 2014 (Some 40) (Some 50) (Some 60) ].

(** Two schools that carry the same code. *)
Definition shared_code : DataFrame :=
  [ mkRow "Adams" 7 2013 (Some 10) (Some 20) (Some 30);
    mkRow "Baker" 7 2013 (Some 40) (Some 50) (Some 60) ].

(** One school, one year, two cells above 500. *)
Definition two_over : DataFrame :=
  [ mkRow "Park" 5 2013 (Some 501) (Some 502) (Some 100) ].

(** One school, one year, a single cell above 500 that float64 does not
    represent: the largest [int64]. *)
Definition large_cell : DataFrame :=
  [ mkRow "Park" 5 2013 (Some (2 ^ 63 - 1)) (Some 0) (Some 0) ].

(** One school, one year, two equal cells above 500 that float64 does not
    represent. *)
Definition large_pair : DataFrame :=
  [ mkRow "Park" 5 2013 (Some (2 ^ 53 + 3)) (Some (2 ^ 53 + 3)) (Some 0) ].


(** ** Notions used by the further properties *)

(** The code that the last row of a school carries. *)
Definition last_code (data : DataFrame) (name : string) : option Z :=
  School_Code <$> last (filter (λ r, School_Name r = name) data).

(** The rows of a school and year from which a grade cell can be computed:
    some matching row has the grade value missing, or exactly one row
    matches and its value is in the [int64] range. *)
Definition cell_computable (data : DataFrame) (school : string) (year : Z)
    (g : grade) : Prop :=
  (∃ r, r ∈ matching_rows data school year ∧ grade_column g r = None) ∨
  (∃ r v, matching_rows data school year = [r] ∧
          grade_column g r = Some v ∧ in_int64 v).

(** [a[:, j, k]]: the cells of one year and grade, over the schools. *)
Definition year_grade_slice (a : cube) (j k : nat) : option (list Z) :=
  mapM (λ plane : matrix, row ← plane !! j; row !! k) a.

(** The two exceptions that the assignment of a cell can raise. *)
Definition series_error : exn :=
  TypeError "cannot convert the series to <class 'int'>".

Definition overflow_error : exn :=
  OverflowError "Python int too large to convert to C long".

(** The object that [create_enrollment_array] builds from the example table
    of the specification, and the exception of subscripting [None]. *)
Definition lincoln_stats : SchoolStats :=
  {| data := lincoln;
     enrollment_array := Some [[[400; 420; 600]; [450; 0; 610]]];
     school_codes := [("Lincoln", 100)] |}.

Definition none_subscript_error : exn :=
  TypeError "'NoneType' object is not subscriptable".

Definition zero_size_maximum : exn :=
  ValueError
    "zero-size array to reduction operation maximum which has no identity".

(** A float64 [x] stands for the natural number [n] exactly, as long as [n]
    is below [2^53]. *)
Definition exactly (x : Q) (n : N) : Prop :=
  (n < 2 ^ 53)%N → x = inject_Z (Z.of_N n).

(** The sum of a list in a monoid. *)
Definition msum {A} (add : A → A → A) (zero : A) (l : list A) : A :=
  foldr add zero l.

(** Two schools with one row each, for 2022; one grade value is missing. *)
Definition year_2022 : DataFrame :=
  [ mkRow "Adams" 7 2022 (Some 100) (Some 110) (Some 120);
    mkRow "Baker" 8 2022 (Some 200) None (Some 220) ].

(** * Properties *)

(** ** The examples of the specification *)

(** One school, two years: the array has shape (1, 2, 3), the missing
    Grade 11 value of 2014 is the cell 0, and the record is the one the
    specification lists. *)
Example lincoln_array junk :
  outcome (create_enrollment_array junk (SchoolStats_init lincoln)) =
    Ok {| data := lincoln;
          enrollment_array := Some [[[400; 420; 600]; [450; 0; 610]]];
          school_codes := [("Lincoln", 100)] |}.
Proof. reflexivity. Qed.

Example lincoln_record :
  calculate_school_stats
    {| data := lincoln;
       enrollment_array := Some [[[400; 420; 600]; [450; 0; 610]]];
       school_codes := [("Lincoln", 100)] |} (IdStr "Lincoln") =
    Ok {| school_name := "Lincoln"; school_code := 100;
          mean_grade_10 := Some 425; mean_grade_11 := Some 210;
          mean_grade_12 := Some 605;
          highest_enrollment := 610; lowest_enrollment := 0;
          yearly_totals := [1420; 1060]; total_enrollment := 2480;
          mean_yearly_enrollment := Some 1240;
          enrollments_over_500 := [600; 610];
          median_over_500 := inl 605 |}.
Proof. reflexivity. Qed.

(** Two schools in 2013 with grade columns 400, 420, 600 and 300, 310, 590:
    the mean of 2013 is floor(436.67) = 436. *)
Example mean_2013_of_two_schools :
  mean_2013 <$>
    calculate_general_stats
      [ mkRow "Adams" 7 2013 (Some 400) (Some 420) (Some 600);
        mkRow "Baker" 8 2013 (Some 300) (Some 310) (Some 590) ]
      [[[400; 420; 600]]; [[300; 310; 590]]] = Ok (Some 436).
Proof. reflexivity. Qed.

(** float64 has 53 significant bits: [2^53 + 1] is half-way between two
    float64 and goes to the one with the even significand, as does
    [2^53 + 3]; the largest [int64] goes to [2^63]; and one tenth is the
    float64 that [0.1] denotes. *)
Example float64_of_int_ties_to_even :
  float64_of_int (2 ^ 53 + 1) = inject_Z (2 ^ 53) ∧
  float64_of_int (2 ^ 53 + 3) = inject_Z (2 ^ 53 + 4) ∧
  float64_of_int (2 ^ 63 - 1) = inject_Z (2 ^ 63) ∧
  float64_of_int (- (2 ^ 53 + 3)) = inject_Z (- (2 ^ 53 + 4)) ∧
  float64_round (1 # 10) = 3602879701896397 # 36028797018963968.
Proof. by vm_compute. Qed.

(** The mean of a single cell that float64 does not represent is below the
    cell: [np.mean] of the array [2^53 + 1] is [2^53]. *)
Example np_mean_below_its_element :
  np_floor (np_mean [2 ^ 53 + 1]) = Some (2 ^ 53).
Proof. by vm_compute. Qed.

(** ** First-appearance order and the dictionary *)

Section unique_facts.
Context {A : Type} `{EqDecision A}.
Implicit Types (l seen : list A).

Lemma unique_step_elem_of seen x y :
  y ∈ unique_step seen x ↔ y ∈ seen ∨ y = x.
Proof.
  unfold unique_step. case_decide.
  - split; [auto | intros [?| ->]; auto].
  - rewrite elem_of_app, list_elem_of_singleton. tauto.
Qed.

Lemma unique_step_NoDup seen x : NoDup seen → NoDup (unique_step seen x).
Proof.
  intros Hnd. unfold unique_step. case_decide; [done|].
  apply NoDup_app. split_and!; [done | | apply NoDup_singleton].
  intros y Hy ->%list_elem_of_singleton. done.
Qed.

Lemma foldl_unique_step_elem_of l seen y :
  y ∈ foldl unique_step seen l ↔ y ∈ seen ∨ y ∈ l.
Proof.
  revert seen. induction l as [|x l IH]; intros seen; simpl.
  - rewrite elem_of_nil. tauto.
  - rewrite IH, unique_step_elem_of, elem_of_cons. tauto.
Qed.

Lemma foldl_unique_step_NoDup l seen :
  NoDup seen → NoDup (foldl unique_step seen l).
Proof.
  revert seen. induction l as [|x l IH]; intros seen Hnd; simpl; [done|].
  by apply IH, unique_step_NoDup.
Qed.

Lemma elem_of_unique l y : y ∈ unique l ↔ y ∈ l.
Proof.
  unfold unique. rewrite foldl_unique_step_elem_of, elem_of_nil. tauto.
Qed.

Lemma NoDup_unique l : NoDup (unique l).
Proof. apply foldl_unique_step_NoDup, NoDup_nil_2. Qed.

Lemma unique_nil_inv l : unique l = [] → l = [].
Proof.
  intros Hu. destruct l as [|x l]; [done|].
  assert (x ∈ unique (x :: l)) as Hx by (apply elem_of_unique; left).
  rewrite Hu in Hx. by apply elem_of_nil in Hx.
Qed.
End unique_facts.

Section dict_facts.
Context {K V : Type} `{EqDecision K}.
Implicit Types (d : dict K V).

Lemma dict_keys_setitem d k v :
  dict_keys (dict_setitem d k v) = unique_step (dict_keys d) k.
Proof.
  unfold dict_keys, unique_step.
  induction d as [|[k' v'] d IH]; csimpl.
  - done.
  - destruct (decide (k' = k)) as [->|Hne]; csimpl.
    + by rewrite decide_True by left.
    + rewrite IH. destruct (decide (k ∈ d.*1)) as [Hin|Hnin].
      * by rewrite decide_True by (by right).
      * rewrite decide_False; [done|].
        intros [?|?]%elem_of_cons; congruence.
Qed.

Lemma dict_setitem_elem_of d k v k' v' :
  (k', v') ∈ dict_setitem d k v → (k', v') ∈ d ∨ (k' = k ∧ v' = v).
Proof.
  induction d as [|[k1 v1] d IH]; csimpl.
  - rewrite list_elem_of_singleton. naive_solver.
  - case_decide; subst; rewrite !elem_of_cons; naive_solver.
Qed.

Lemma dict_getitem_Some d k v :
  NoDup (dict_keys d) → dict_getitem d k = Some v ↔ (k, v) ∈ d.
Proof.
  unfold dict_keys. induction d as [|[k1 v1] d IH]; csimpl; intros Hnd.
  - rewrite elem_of_nil. naive_solver.
  - apply NoDup_cons in Hnd as [Hk1 Hnd]. rewrite elem_of_cons.
    case_decide; subst.
    + split; [naive_solver|]. intros [?|Hin]; [naive_solver|].
      destruct Hk1. apply list_elem_of_fmap. by exists (k, v).
    + rewrite IH by done. naive_solver.
Qed.
Lemma dict_getitem_is_Some d k :
  k ∈ dict_keys d → is_Some (dict_getitem d k).
Proof.
  unfold dict_keys. induction d as [|[k' v'] d IH]; csimpl.
  - by intros ?%elem_of_nil.
  - case_decide; [by eexists|]. intros [?|?]%elem_of_cons; [congruence|auto].
Qed.
End dict_facts.

(** ** The dictionary of [__init__] *)

Section school_codes_facts.
Implicit Types (data rows : DataFrame) (d : dict string Z).

Lemma foldl_codes_step_keys rows d :
  dict_keys (foldl codes_step d rows) =
  foldl unique_step (dict_keys d) (School_Name <$> rows).
Proof.
  revert d. induction rows as [|r rows IH]; intros d; csimpl; [done|].
  rewrite IH. unfold codes_step. by rewrite dict_keys_setitem.
Qed.

Lemma foldl_codes_step_elem_of rows d k v :
  (k, v) ∈ foldl codes_step d rows →
  (k, v) ∈ d ∨ ∃ r, r ∈ rows ∧ School_Name r = k ∧ School_Code r = v.
Proof.
  revert d. induction rows as [|r rows IH]; intros d; csimpl; [by left|].
  intros [Hin|(r' & ? & ? & ?)]%IH.
  - apply dict_setitem_elem_of in Hin as [?|[-> ->]]; [by left|].
    right. exists r. split_and!; [left | done | done].
  - right. exists r'. split_and!; [by right | done | done].
Qed.

(** The keys of the dictionary, in insertion order, are the distinct
    school names in order of first appearance. *)
Lemma school_codes_keys data :
  dict_keys (school_codes (SchoolStats_init data)) =
  unique (School_Name <$> data).
Proof. apply (foldl_codes_step_keys data []). Qed.

Lemma school_codes_elem_of data k v :
  (k, v) ∈ school_codes (SchoolStats_init data) →
  ∃ r, r ∈ data ∧ School_Name r = k ∧ School_Code r = v.
Proof.
  intros [Hin|?]%(foldl_codes_step_elem_of data []); [|done].
  by apply elem_of_nil in Hin.
Qed.

Lemma school_codes_NoDup data :
  NoDup (dict_keys (school_codes (SchoolStats_init data))).
Proof. rewrite school_codes_keys. apply NoDup_unique. Qed.
End school_codes_facts.

Lemma data_init table : data (SchoolStats_init table) = table.
Proof. done. Qed.

(** ** Resolution *)

Section resolution_facts.
Implicit Types (self : SchoolStats) (ident : identifier).

Lemma list_index_Ok {A} `{EqDecision A} (x : A) (l : list A) i :
  list_index x l = Ok i → l !! i = Some x.
Proof.
  unfold list_index. destruct (list_find _ l) as [[i' y]|] eqn:Hf; [|done].
  intros [= <-]. apply list_find_Some in Hf as (? & -> & _). done.
Qed.

Lemma list_index_NoDup {A} `{EqDecision A} (x : A) (l : list A) i :
  NoDup l → l !! i = Some x → list_index x l = Ok i.
Proof.
  intros Hnd Hi. unfold list_index.
  destruct (list_find _ l) as [[i' y]|] eqn:Hf.
  - apply list_find_Some in Hf as (Hi' & -> & _).
    by rewrite (NoDup_lookup l i i' x Hnd Hi Hi').
  - eapply list_find_None, Forall_lookup_1 in Hf; [|done]. done.
Qed.

Lemma get_school_index_Ok self ident p :
  get_school_index self ident = Ok p →
  ∃ name, resolved_name self ident = Some name ∧
          dict_keys (school_codes self) !! p = Some name.
Proof.
  unfold get_school_index.
  destruct (resolved_name self ident) as [name|]; [|done].
  destruct (dict_contains _ _); [|done].
  intros ?%list_index_Ok. by exists name.
Qed.

Lemma get_school_index_Raise self ident e :
  NoDup (dict_keys (school_codes self)) →
  get_school_index self ident = Raise e → e = invalid_school.
Proof.
  intros Hnd. unfold get_school_index.
  destruct (resolved_name self ident) as [name|]; [|by intros [= <-]].
  unfold dict_contains. case_bool_decide as Hin; [|by intros [= <-]].
  apply list_elem_of_lookup in Hin as [i Hi].
  by rewrite (list_index_NoDup _ _ _ Hnd Hi).
Qed.

Lemma get_school_index_resolved self ident name p :
  NoDup (dict_keys (school_codes self)) →
  resolved_name self ident = Some name →
  dict_keys (school_codes self) !! p = Some name →
  get_school_index self ident = Ok p.
Proof.
  intros Hnd Hres Hp. unfold get_school_index. rewrite Hres.
  unfold dict_contains. rewrite bool_decide_eq_true_2.
  - by apply list_index_NoDup.
  - by eapply list_elem_of_lookup_2.
Qed.

Lemma get_school_index_unresolved self ident :
  resolved_name self ident = None →
  get_school_index self ident = Raise invalid_school.
Proof.
  intros Hres. unfold get_school_index. by rewrite Hres.
Qed.

Lemma get_school_index_absent self ident name :
  resolved_name self ident = Some name →
  name ∉ dict_keys (school_codes self) →
  get_school_index self ident = Raise invalid_school.
Proof.
  intros Hres Hnin. unfold get_school_index. rewrite Hres.
  unfold dict_contains. by rewrite bool_decide_eq_false_2.
Qed.

(** A code resolves to the first key, in insertion order, that the
    dictionary maps to it. *)
Lemma resolved_name_code self code name :
  resolved_name self (IdInt code) = Some name →
  (name, code) ∈ school_codes self.
Proof.
  simpl. destruct (head _) as [[n c]|] eqn:Hh; [|done].
  intros [= <-]. apply head_Some_elem_of in Hh.
  apply list_elem_of_filter in Hh as [Hc Hin]. simpl in Hc. by subst.
Qed.

Lemma resolved_name_code_is_Some self code name :
  (name, code) ∈ school_codes self →
  is_Some (resolved_name self (IdInt code)).
Proof.
  intros Hin. simpl.
  destruct (filter _ (school_codes self)) as [|nc l] eqn:Hf; [|by eexists].
  eapply (filter_nil_not_elem_of _ _ (name, code)) in Hf; done.
Qed.
End resolution_facts.

(** A decidable proposition is settled by evaluating its decision
    procedure. *)
Ltac by_compute := apply (bool_decide_unpack _); vm_compute; exact I.

(** ** Claims about resolution *)

(** C4. An identifier that matches no school of the table -- a name that
    no row carries, or a code that no row carries -- is rejected with the
    [ValueError] "You must enter a valid school name or code."; no position
    is returned. *)
Theorem unknown_identifier_rejected data ident :
  matches_no_school data ident →
  get_school_index (SchoolStats_init data) ident = Raise invalid_school.
Proof.
  intros Hno.
  destruct (resolved_name (SchoolStats_init data) ident) as [name|] eqn:Hres;
    [|by apply get_school_index_unresolved].
  apply (get_school_index_absent _ _ name); [done|].
  rewrite school_codes_keys, elem_of_unique.
  destruct ident as [code|name']; simpl in Hno.
  - apply resolved_name_code, school_codes_elem_of in Hres as (r & Hr & _ & Hc).
    destruct Hno. apply list_elem_of_fmap. by exists r.
  - simpl in Hres. by simplify_eq.
Qed.

Lemma unknown_identifier_rejected_witness :
  get_school_index (SchoolStats_init lincoln) (IdStr "Lincol") = Raise invalid_school
  ∧ get_school_index (SchoolStats_init lincoln) (IdInt 101) = Raise invalid_school.
Proof.
  split; apply unknown_identifier_rejected; by_compute.
Defined.

(** C3, as stated, fails when two schools carry the same code: the code
    resolves to the school that appears first. In [shared_code] the row of
    "Baker" has code 7, its name resolves to position 1 and its code to
    position 0. *)
Lemma name_and_code_differ :
  ¬ (∀ r, r ∈ shared_code →
      get_school_index (SchoolStats_init shared_code) (IdStr (School_Name r)) =
      get_school_index (SchoolStats_init shared_code) (IdInt (School_Code r))).
Proof.
  intros H.
  specialize (H (mkRow "Baker" 7 2013 (Some 40) (Some 50) (Some 60))).
  discriminate H. right. left.
Qed.

(** C3, amended. Every school of the table has a code in the dictionary
    (the last one its rows carry) and a position, to which its name
    resolves; when no other school has that code in the dictionary, the code
    resolves to the same position. *)
Theorem name_and_code_resolve_alike data name :
  name ∈ School_Name <$> data →
  ∃ code p,
    dict_getitem (school_codes (SchoolStats_init data)) name = Some code ∧
    get_school_index (SchoolStats_init data) (IdStr name) = Ok p ∧
    ((∀ name', dict_getitem (school_codes (SchoolStats_init data)) name' =
                 Some code → name' = name) →
     get_school_index (SchoolStats_init data) (IdInt code) = Ok p).
Proof.
  intros Hname. set (self := SchoolStats_init data).
  pose proof (school_codes_NoDup data) as Hnd. fold self in Hnd.
  assert (name ∈ dict_keys (school_codes self)) as Hkey
    by by (unfold self; rewrite school_codes_keys, elem_of_unique).
  destruct (dict_getitem_is_Some _ _ Hkey) as [code Hcode].
  pose proof Hkey as [p Hp]%list_elem_of_lookup.
  exists code, p. split_and!; [done| |].
  { by apply (get_school_index_resolved _ _ name). }
  intros Hunshared.
  (* the first key mapped to [code] can only be [name] *)
  pose proof Hcode as Hin%dict_getitem_Some; [|done].
  destruct (resolved_name_code_is_Some self _ _ Hin) as [name' Hres].
  apply (get_school_index_resolved _ _ name'); [done | done |].
  pose proof Hres as Hin'%resolved_name_code.
  apply dict_getitem_Some in Hin'; [|done].
  by rewrite (Hunshared name' Hin').
Qed.

Lemma name_and_code_resolve_alike_witness :
  (∃ code p,
    dict_getitem (school_codes (SchoolStats_init lincoln)) "Lincoln" = Some code ∧
    get_school_index (SchoolStats_init lincoln) (IdStr "Lincoln") = Ok p ∧
    ((∀ name', dict_getitem (school_codes (SchoolStats_init lincoln)) name' =
                 Some code → name' = "Lincoln") →
     get_school_index (SchoolStats_init lincoln) (IdInt code) = Ok p))
  ∧ get_school_index (SchoolStats_init lincoln) (IdStr "Lincoln") = Ok 0%nat
  ∧ get_school_index (SchoolStats_init lincoln) (IdInt 100) = Ok 0%nat.
Proof.
  split; [|done]. apply (name_and_code_resolve_alike lincoln "Lincoln").
  by_compute.
Defined.

(** ** Loops *)

Section for_loop_facts.
Context {A S : Type}.
Implicit Types (body : A → S → S * option exn) (l : list A) (s : S).

Lemma for_loop_app body l1 l2 s :
  for_loop body (l1 ++ l2) s =
    match for_loop body l1 s with
    | (s', None) => for_loop body l2 s'
    | (s', Some e) => (s', Some e)
    end.
Proof.
  revert s. induction l1 as [|x l1 IH]; intros s; simpl; [done|].
  destruct (body x s) as [s' [e|]]; [done|]. apply IH.
Qed.

Lemma for_loop_ext body1 body2 l s :
  (∀ x s', body1 x s' = body2 x s') →
  for_loop body1 l s = for_loop body2 l s.
Proof.
  intros Hext. revert s. induction l as [|x l IH]; intros s; simpl; [done|].
  rewrite Hext. destruct (body2 x s) as [s' [e|]]; [done|]. apply IH.
Qed.

Lemma for_loop_fmap {B} (f : B → A) body (l : list B) s :
  for_loop body (f <$> l) s = for_loop (λ y, body (f y)) l s.
Proof.
  revert s. induction l as [|y l IH]; intros s; csimpl; [done|].
  destruct (body (f y) s) as [s' [e|]]; [done|]. apply IH.
Qed.
End for_loop_facts.

(** Two nested loops run the body over the pairs of their items, the inner
    loop varying fastest. *)
Lemma for_loop_nested {A B S} (body : A → B → S → S * option exn)
    (l1 : list A) (l2 : list B) (s : S) :
  for_loop (λ x, for_loop (body x) l2) l1 s =
  for_loop (λ xy, body xy.1 xy.2) (x ← l1; pair x <$> l2) s.
Proof.
  revert s. induction l1 as [|x l1 IH]; intros s; [done|].
  rewrite bind_cons, for_loop_app, for_loop_fmap. simpl.
  destruct (for_loop (body x) l2 s) as [s' [e|]]; [done|]. apply IH.
Qed.

Lemma fill_array_flat data schools years a :
  fill_array data schools years a =
  for_loop (cell_body data) (iterations schools years) a.
Proof.
  unfold fill_array, iterations.
  etrans; [|apply (for_loop_nested
    (λ is_ u, assign_cell data is_.1 is_.2 u.1.1 u.1.2 u.2))].
  apply for_loop_ext. intros is_ s.
  apply (for_loop_nested (λ jy kg, assign_cell data is_.1 is_.2 jy.1 jy.2 kg)).
Qed.

Lemma elem_of_enumerate {A} (l : list A) i x :
  (i, x) ∈ enumerate l ↔ l !! i = Some x.
Proof.
  unfold enumerate. rewrite elem_of_lookup_imap. split.
  - intros (i' & x' & ? & ?). by simplify_eq.
  - intros ?. by exists i, x.
Qed.

Lemma elem_of_iterations schools years (t : iteration) :
  t ∈ iterations schools years ↔
    schools !! pos_i t = Some t.1.2 ∧
    years !! pos_j t = Some t.2.1.2 ∧
    grades !! pos_k t = Some t.2.2.2.
Proof.
  destruct t as [[i s] [[j y] [k g]]]. unfold iterations, pos_i, pos_j, pos_k.
  cbn [fst snd]. rewrite list_elem_of_bind. split.
  - intros ([i' s'] & Ht & Hs). apply list_elem_of_fmap in Ht as (u & ? & Hu).
    simplify_eq. apply list_elem_of_bind in Hu as ([j' y'] & Hu & Hy).
    apply list_elem_of_fmap in Hu as (kg & ? & Hg). simplify_eq.
    by rewrite <- !elem_of_enumerate.
  - intros (Hs & Hy & Hg). exists (i, s). split; [|by apply elem_of_enumerate].
    apply list_elem_of_fmap. exists ((j, y), (k, g)). split; [done|].
    apply list_elem_of_bind. exists (j, y). split; [|by apply elem_of_enumerate].
    apply list_elem_of_fmap. exists (k, g). split; [done|].
    by apply elem_of_enumerate.
Qed.

(** ** Indexing *)

Section array_facts.
Implicit Types (a : cube) (m : matrix) (i j k : nat).

Lemma getitem_lookup a m (r : list Z) i j k :
  a !! i = Some m → m !! j = Some r → getitem a i j k = r !! k.
Proof. unfold getitem. intros -> Hj. csimpl. by rewrite Hj. Qed.

Lemma getitem_Some_inv a i j k v :
  getitem a i j k = Some v →
  ∃ m (r : list Z), a !! i = Some m ∧ m !! j = Some r ∧ r !! k = Some v.
Proof.
  unfold getitem. destruct (a !! i) as [m|]; [|done]. csimpl.
  destruct (m !! j) as [r|] eqn:Hj; [|done]. csimpl. intros ?. by exists m, r.
Qed.

Lemma shape_lookup a i m :
  a !! i = Some m → shape a !! i = Some (length <$> m).
Proof. intros Hi. unfold shape. by rewrite list_lookup_fmap, Hi. Qed.

Lemma getitem_is_Some a i j k :
  is_Some (getitem a i j k) ↔
  ∃ ns n, shape a !! i = Some ns ∧ ns !! j = Some n ∧ (k < n)%nat.
Proof.
  unfold getitem, shape. rewrite list_lookup_fmap.
  destruct (a !! i) as [m|]; csimpl; [|split; [by intros [??] | naive_solver]].
  split.
  - destruct (m !! j) as [r|] eqn:Hj; csimpl; [|by intros [??]].
    intros Hk%lookup_lt_is_Some. exists (length <$> m), (length r).
    by rewrite list_lookup_fmap, Hj.
  - intros (ns & n & ? & Hj & Hk). simplify_eq.
    rewrite list_lookup_fmap in Hj.
    destruct (m !! j) as [r|]; csimpl in *; [|done].
    simplify_eq. by apply lookup_lt_is_Some.
Qed.

Lemma getitem_is_Some_shape a1 a2 i j k :
  shape a1 = shape a2 → is_Some (getitem a1 i j k) → is_Some (getitem a2 i j k).
Proof. rewrite !getitem_is_Some. by intros ->. Qed.

Lemma shape_store a i j k v :
  shape (alter (alter (<[k:=v]>) j) i a) = shape a.
Proof.
  unfold shape. apply list_eq. intros i'.
  rewrite !list_lookup_fmap, list_lookup_alter.
  case_decide; [subst i'|done].
  destruct (a !! i) as [m|]; csimpl; [|done]. f_equal.
  apply list_eq. intros j'. rewrite !list_lookup_fmap, list_lookup_alter.
  case_decide; [subst j'|done].
  destruct (m !! j) as [r|]; csimpl; [|done]. by rewrite length_insert.
Qed.

Lemma getitem_store a i j k v i' j' k' :
  is_Some (getitem a i j k) →
  getitem (alter (alter (<[k:=v]>) j) i a) i' j' k' =
    if decide (i' = i ∧ j' = j ∧ k' = k) then Some v else getitem a i' j' k'.
Proof.
  intros [v0 (m & r & Hi & Hj & Hk)%getitem_Some_inv].
  unfold getitem. rewrite list_lookup_alter.
  destruct (decide (i = i')) as [<-|?]; [|by rewrite decide_False by naive_solver].
  rewrite Hi. csimpl. rewrite list_lookup_alter.
  destruct (decide (j = j')) as [<-|?]; [|by rewrite decide_False by naive_solver].
  rewrite Hj. csimpl. rewrite list_lookup_insert.
  apply lookup_lt_Some in Hk.
  destruct (decide (k = k')) as [<-|?].
  - by rewrite !decide_True by done.
  - by rewrite !decide_False by naive_solver.
Qed.

Lemma cube_eq a1 a2 :
  shape a1 = shape a2 →
  (∀ i j k, getitem a1 i j k = getitem a2 i j k) →
  a1 = a2.
Proof.
  intros Hshape Hget. apply list_eq. intros i.
  assert (shape a1 !! i = shape a2 !! i) as Hi by by rewrite Hshape.
  unfold shape in Hi. rewrite !list_lookup_fmap in Hi.
  destruct (a1 !! i) as [m1|] eqn:H1, (a2 !! i) as [m2|] eqn:H2;
    csimpl in Hi; [|done..]. f_equal.
  apply list_eq. intros j.
  assert ((length <$> m1) !! j = (length <$> m2) !! j) as Hj by congruence.
  rewrite !list_lookup_fmap in Hj.
  destruct (m1 !! j) as [r1|] eqn:Hr1, (m2 !! j) as [r2|] eqn:Hr2;
    csimpl in Hj; [|done..]. f_equal.
  apply list_eq. intros k.
  rewrite <- (getitem_lookup a1 m1 r1 i j k), <- (getitem_lookup a2 m2 r2 i j k);
    done.
Qed.

Lemma shape_np_empty junk (n m p : nat) :
  shape (np_empty junk n m p) = replicate n (replicate m p).
Proof.
  unfold shape, np_empty. rewrite <- list_fmap_compose.
  trans (replicate (length (seq 0 n)) (replicate m p));
    [|by rewrite length_seq].
  apply const_fmap. intros ? i _. unfold compose. rewrite <- list_fmap_compose.
  trans (replicate (length (seq 0 m)) p); [|by rewrite length_seq].
  apply const_fmap. intros ? j _. unfold compose. by rewrite length_fmap, length_seq.
Qed.
End array_facts.

(** ** The assignments of the loop nest *)

Section fill_facts.
Context (data : DataFrame).
Implicit Types (t : iteration) (L : list iteration) (a : cube).

Lemma setitem_decide a i j k v :
  setitem a i j k v =
    if decide (is_Some (getitem a i j k)) then
      if decide (in_int64 v)
      then Ok (alter (alter (<[k := v]>) j) i a)
      else Raise (OverflowError "Python int too large to convert to C long")
    else Raise (IndexError "index is out of bounds").
Proof.
  unfold setitem.
  destruct (decide (is_Some (getitem a i j k))) as [[? ->]|Hg]; [done|].
  destruct (getitem a i j k); [|done]. destruct Hg. by eexists.
Qed.

Lemma cell_body_unfold t a :
  cell_body data t a =
    match value_at data t ≫= setitem a (pos_i t) (pos_j t) (pos_k t) with
    | Ok a' => (a', None)
    | Raise e => (a, Some e)
    end.
Proof. done. Qed.

Lemma cell_body_shape t a : shape (cell_body data t a).1 = shape a.
Proof.
  rewrite cell_body_unfold. destruct (value_at data t) as [v|e]; [|done].
  csimpl. rewrite setitem_decide. repeat case_decide; simpl; [|done..].
  apply shape_store.
Qed.

Lemma cell_body_exn t a1 a2 :
  shape a1 = shape a2 → (cell_body data t a1).2 = (cell_body data t a2).2.
Proof.
  intros Hshape. rewrite !cell_body_unfold.
  destruct (value_at data t) as [v|e]; [|done].
  csimpl. rewrite !setitem_decide.
  destruct (decide (is_Some (getitem a1 _ _ _))) as [H1|H1].
  - rewrite (decide_True (P:=is_Some (getitem a2 _ _ _)))
      by by eapply getitem_is_Some_shape.
    by case_decide.
  - rewrite (decide_False (P:=is_Some (getitem a2 _ _ _))); [done|].
    intros H2. destruct H1. by eapply getitem_is_Some_shape.
Qed.

Lemma cell_body_None t a a' :
  cell_body data t a = (a', None) →
  ∃ v, value_at data t = Ok v ∧ in_int64 v ∧
    ∀ i j k, getitem a' i j k =
      if decide (writes t i j k) then Some v else getitem a i j k.
Proof.
  rewrite cell_body_unfold. destruct (value_at data t) as [v|e]; [|done].
  csimpl. rewrite setitem_decide. repeat case_decide; [|done..].
  intros [= <-]. exists v. split_and!; [done..|].
  intros i j k. rewrite getitem_store by done. unfold writes.
  apply decide_ext. naive_solver.
Qed.

Lemma cell_body_success t a v :
  value_at data t = Ok v → in_int64 v →
  is_Some (getitem a (pos_i t) (pos_j t) (pos_k t)) →
  (cell_body data t a).2 = None.
Proof.
  intros Hv ??. rewrite cell_body_unfold, Hv. csimpl.
  rewrite setitem_decide. by rewrite !decide_True by done.
Qed.

Lemma cells_shape L a : shape (for_loop (cell_body data) L a).1 = shape a.
Proof.
  revert a. induction L as [|t L IH]; intros a; simpl; [done|].
  pose proof (cell_body_shape t a) as Hs.
  destruct (cell_body data t a) as [a1 [e|]]; [done|].
  by rewrite IH.
Qed.

(** Whether and how the loops fail does not depend on what the array
    held before. *)
Lemma cells_exn L a1 a2 :
  shape a1 = shape a2 →
  (for_loop (cell_body data) L a1).2 = (for_loop (cell_body data) L a2).2.
Proof.
  revert a1 a2. induction L as [|t L IH]; intros a1 a2 Hshape; simpl; [done|].
  pose proof (cell_body_exn t a1 a2 Hshape) as He.
  pose proof (cell_body_shape t a1) as Hs1.
  pose proof (cell_body_shape t a2) as Hs2.
  destruct (cell_body data t a1) as [b1 [e1|]],
           (cell_body data t a2) as [b2 [e2|]]; simpl in *; try done.
  apply IH. congruence.
Qed.

Lemma cells_unchanged L a a' i j k :
  for_loop (cell_body data) L a = (a', None) →
  Forall (λ t, ¬ writes t i j k) L →
  getitem a' i j k = getitem a i j k.
Proof.
  revert a. induction L as [|t L IH]; intros a; simpl.
  - by intros [= <-].
  - destruct (cell_body data t a) as [a1 [e|]] eqn:Hbody; [done|].
    intros Hloop [Ht HL]%Forall_cons. rewrite (IH a1) by done.
    apply cell_body_None in Hbody as (v & _ & _ & ->).
    by rewrite decide_False.
Qed.

Lemma cells_values L a a' t :
  for_loop (cell_body data) L a = (a', None) → t ∈ L →
  ∃ v, value_at data t = Ok v ∧ in_int64 v.
Proof.
  revert a. induction L as [|t' L IH]; intros a; simpl.
  - by intros _ ?%elem_of_nil.
  - destruct (cell_body data t' a) as [a1 [e|]] eqn:Hbody; [done|].
    intros Hloop [->|Hin]%elem_of_cons; [|by eapply IH].
    apply cell_body_None in Hbody as (v & ? & ? & _). by exists v.
Qed.

(** After a run without exception, a cell that some iteration writes
    holds the value of that iteration, provided all the iterations that
    write the cell agree on the value. *)
Lemma cells_written L a a' i j k v :
  for_loop (cell_body data) L a = (a', None) →
  Exists (λ t, writes t i j k) L →
  Forall (λ t, writes t i j k → value_at data t = Ok v) L →
  getitem a' i j k = Some v.
Proof.
  revert a. induction L as [|t L IH]; intros a; simpl.
  - by intros _ ?%Exists_nil.
  - destruct (cell_body data t a) as [a1 [e|]] eqn:Hbody; [done|].
    intros Hloop Hex [Ht HL]%Forall_cons.
    destruct (decide (Exists (λ t, writes t i j k) L)) as [?|Hnone];
      [by eapply IH|].
    apply Exists_cons in Hex as [Hw|?]; [|done].
    apply not_Exists_Forall in Hnone; [|apply _].
    rewrite (cells_unchanged L a1 a' i j k) by done.
    apply cell_body_None in Hbody as (v' & Hv' & _ & ->).
    rewrite decide_True by done. specialize (Ht Hw). congruence.
Qed.

Lemma cells_success L a :
  Forall (λ t, ∃ v, value_at data t = Ok v ∧ in_int64 v ∧
                    is_Some (getitem a (pos_i t) (pos_j t) (pos_k t))) L →
  (for_loop (cell_body data) L a).2 = None.
Proof.
  revert a. induction L as [|t L IH]; intros a; simpl; [done|].
  intros [(v & Hv & Hin & Hget) HL]%Forall_cons.
  pose proof (cell_body_success t a v Hv Hin Hget) as Hnone.
  pose proof (cell_body_shape t a) as Hshape.
  destruct (cell_body data t a) as [a1 [e|]]; simpl in *; [done|].
  apply IH. eapply Forall_impl; [done|]. simpl.
  intros t' (v' & ? & ? & ?). exists v'. split_and!; [done..|].
  by eapply getitem_is_Some_shape.
Qed.
End fill_facts.

(** ** The array that [create_enrollment_array] leaves *)

Section create_facts.
Implicit Types (data : DataFrame) (self : SchoolStats) (a : cube).

Lemma cell_value_one_row data school year g r :
  matching_rows data school year = [r] →
  cell_value data school year g = Ok (default 0 (grade_column g r)).
Proof.
  intros Hrows. unfold cell_value, select. rewrite Hrows. csimpl.
  destruct (grade_column g r) as [v|]; [|done].
  unfold isna_any. rewrite bool_decide_eq_false_2; [done|].
  intros [?|?%Exists_nil]%Exists_cons; done.
Qed.

Lemma cell_value_missing data school year g r :
  r ∈ matching_rows data school year → grade_column g r = None →
  cell_value data school year g = Ok 0.
Proof.
  intros Hr Hnone. unfold cell_value, select, isna_any.
  rewrite bool_decide_eq_true_2; [done|].
  apply Exists_exists. exists None. split; [|done].
  apply list_elem_of_fmap. by exists r.
Qed.

Lemma cell_value_no_row data school year g :
  matching_rows data school year = [] →
  cell_value data school year g =
    Raise (TypeError "cannot convert the series to <class 'int'>").
Proof. intros Hrows. unfold cell_value, select. by rewrite Hrows. Qed.

Lemma iterations_writes_inj schools years (t t' : iteration) :
  t ∈ iterations schools years → t' ∈ iterations schools years →
  writes t' (pos_i t) (pos_j t) (pos_k t) → t' = t.
Proof.
  intros (Hs & Hy & Hg)%elem_of_iterations (Hs' & Hy' & Hg')%elem_of_iterations.
  intros (Hi & Hj & Hk). rewrite Hi in Hs'. rewrite Hj in Hy'. rewrite Hk in Hg'.
  destruct t as [[i s] [[j y] [k g]]], t' as [[i' s'] [[j' y'] [k' g']]].
  unfold pos_i, pos_j, pos_k in *. simpl in *. by simplify_eq.
Qed.

Lemma shape_in_range (n m p i j k : nat) a :
  shape a = replicate n (replicate m p) →
  is_Some (getitem a i j k) ↔ (i < n ∧ j < m ∧ k < p)%nat.
Proof.
  intros Hshape. rewrite getitem_is_Some, Hshape. split.
  - intros (ns & q & [-> ?]%lookup_replicate & [-> ?]%lookup_replicate & ?).
    done.
  - intros (? & ? & ?). exists (replicate m p), p.
    by rewrite !lookup_replicate_2.
Qed.

(** The array after the loop nest has run from any initial content. *)
Lemma fill_array_shape data schools years a :
  shape (fill_array data schools years a).1 = shape a.
Proof. rewrite fill_array_flat. apply cells_shape. Qed.

Lemma fill_array_cell data schools years a a' i j k s y g :
  fill_array data schools years a = (a', None) →
  schools !! i = Some s → years !! j = Some y → grades !! k = Some g →
  ∃ v, cell_value data s y g = Ok v ∧ in_int64 v ∧ getitem a' i j k = Some v.
Proof.
  rewrite fill_array_flat. intros Hfill Hs Hy Hg.
  set (t := ((i, s), ((j, y), (k, g))) : iteration).
  assert (t ∈ iterations schools years) as Ht by by apply elem_of_iterations.
  destruct (cells_values data _ _ _ t Hfill Ht) as (v & Hv & Hin).
  exists v. split_and!; [done..|].
  apply (cells_written data _ _ _ i j k v Hfill).
  - apply Exists_exists. by exists t.
  - apply Forall_forall. intros t' Ht' Hw.
    by rewrite (iterations_writes_inj schools years t t' Ht Ht' Hw).
Qed.

Lemma fill_array_success data schools years a :
  shape a = replicate (length schools)
              (replicate (length years) (length grades)) →
  (∀ s y g, s ∈ schools → y ∈ years → g ∈ grades →
     ∃ v, cell_value data s y g = Ok v ∧ in_int64 v) →
  (fill_array data schools years a).2 = None.
Proof.
  intros Hshape Hcells. rewrite fill_array_flat. apply cells_success.
  apply Forall_forall. intros t (Hs & Hy & Hg)%elem_of_iterations.
  destruct (Hcells t.1.2 t.2.1.2 t.2.2.2) as (v & Hv & Hin);
    [by eapply list_elem_of_lookup_2..|].
  exists v. split_and!; [done..|].
  apply (shape_in_range _ _ _ _ _ _ _ Hshape).
  split_and!; by eapply lookup_lt_Some.
Qed.

Lemma create_enrollment_array_unfold junk self :
  create_enrollment_array junk self =
    let schools := unique (School_Name <$> data self) in
    let years := unique (School_Year <$> data self) in
    let r := fill_array (data self) schools years
               (np_empty junk (length schools) (length years) (length grades)) in
    ({| data := data self; enrollment_array := Some r.1;
        school_codes := school_codes self |}, r.2).
Proof.
  unfold create_enrollment_array. simpl. by destruct (fill_array _ _ _ _).
Qed.

(** What a run without exception leaves in the object. *)
Lemma create_enrollment_array_None junk self self' :
  create_enrollment_array junk self = (self', None) →
  ∃ a, self' = {| data := data self; enrollment_array := Some a;
                  school_codes := school_codes self |} ∧
    shape a = replicate (length (unique (School_Name <$> data self)))
                (replicate (length (unique (School_Year <$> data self)))
                   (length grades)) ∧
    ∀ i j k s y g,
      unique (School_Name <$> data self) !! i = Some s →
      unique (School_Year <$> data self) !! j = Some y →
      grades !! k = Some g →
      ∃ v, cell_value (data self) s y g = Ok v ∧ in_int64 v ∧
           getitem a i j k = Some v.
Proof.
  rewrite create_enrollment_array_unfold. cbv zeta.
  set (schools := unique (School_Name <$> data self)).
  set (years := unique (School_Year <$> data self)).
  set (a0 := np_empty junk _ _ _).
  destruct (fill_array (data self) schools years a0) as [a e] eqn:Hfill.
  simpl. intros [= <- ->]. exists a. split_and!; [done| |].
  - pose proof (fill_array_shape (data self) schools years a0) as Hs.
    rewrite Hfill in Hs. simpl in Hs. rewrite Hs. apply shape_np_empty.
  - intros i j k s y g. by apply (fill_array_cell _ _ _ a0).
Qed.
(** A run can only return when every school has a row for every year. *)
Lemma create_enrollment_array_needs_rows junk self self' s y :
  create_enrollment_array junk self = (self', None) →
  s ∈ unique (School_Name <$> data self) →
  y ∈ unique (School_Year <$> data self) →
  matching_rows (data self) s y ≠ [].
Proof.
  intros (a & _ & _ & Hcell)%create_enrollment_array_None.
  intros [i Hs]%list_elem_of_lookup [j Hy]%list_elem_of_lookup Hnone.
  destruct (Hcell i j 0%nat s y Grade10 Hs Hy eq_refl) as (v & Hv & _).
  by rewrite (cell_value_no_row _ _ _ _ Hnone) in Hv.
Qed.
End create_facts.

(** ** Claims about the array *)

(** C1, as stated, fails where a school has no row for a year of the
    table: in [gap] no row matches "Adams" and 2014, the selection is empty,
    [pd.isna(value).any()] is false and [int(value)] raises [TypeError], so
    the construction raises instead of writing 0. *)
Lemma absent_combination_raises :
  matching_rows gap "Adams" 2014 = [] ∧
  ∀ junk, outcome (create_enrollment_array junk (SchoolStats_init gap)) =
    Raise (TypeError "cannot convert the series to <class 'int'>").
Proof. split; [done|]. intros junk. reflexivity. Qed.

(** C1, amended. Whenever the construction returns, a cell for which some
    matching row has a missing grade value holds 0. When every school of the
    table has exactly one row for every year of the table (and the grade
    values fit [int64]), the construction does return, without raising, and
    for every school position [i], year position [j] and grade position [k]
    the cell [(i, j, k)] holds 0 if the grade value of the matching row is
    missing and that value itself otherwise: nothing is interpolated. *)
Theorem create_enrollment_array_cells junk data :
  (∀ self a i j k s y g r,
     create_enrollment_array junk (SchoolStats_init data) = (self, None) →
     enrollment_array self = Some a →
     unique (School_Name <$> data) !! i = Some s →
     unique (School_Year <$> data) !! j = Some y →
     grades !! k = Some g →
     r ∈ matching_rows data s y → grade_column g r = None →
     getitem a i j k = Some 0)
  ∧ (one_row_per_school_year data → grades_in_int64 data →
     ∃ self a,
       create_enrollment_array junk (SchoolStats_init data) = (self, None) ∧
       enrollment_array self = Some a ∧
       ∀ i j k s y g,
         unique (School_Name <$> data) !! i = Some s →
         unique (School_Year <$> data) !! j = Some y →
         grades !! k = Some g →
         ∃ r, matching_rows data s y = [r] ∧
              getitem a i j k = Some (default 0 (grade_column g r))).
Proof.
  split.
  { intros self a i j k s y g r Hcreate Harr Hs Hy Hg Hr Hnone.
    apply create_enrollment_array_None in Hcreate as (a' & Hself & _ & Hcell).
    assert (a' = a) as -> by (rewrite Hself in Harr; by simplify_eq/=).
    destruct (Hcell i j k s y g Hs Hy Hg) as (v & Hv & _ & ->).
    rewrite data_init, (cell_value_missing _ _ _ _ r Hr Hnone) in Hv.
    by simplify_eq. }
  intros Hone Hfit.
  assert (Hrow : ∀ s y, s ∈ unique (School_Name <$> data) →
            y ∈ unique (School_Year <$> data) →
            ∃ r, matching_rows data s y = [r] ∧ r ∈ data).
  { intros s y Hs Hy. unfold one_row_per_school_year in Hone.
    rewrite Forall_forall in Hone. specialize (Hone s Hs).
    rewrite Forall_forall in Hone. specialize (Hone y Hy).
    destruct (matching_rows data s y) as [|r [|??]] eqn:Hm; simplify_eq/=.
    exists r. split; [done|].
    assert (r ∈ matching_rows data s y) as Hr by (rewrite Hm; left).
    by apply list_elem_of_filter in Hr as [_ ?]. }
  destruct (create_enrollment_array junk (SchoolStats_init data))
    as [self e] eqn:Hcreate.
  assert (e = None) as ->.
  { rewrite create_enrollment_array_unfold in Hcreate. cbv zeta in Hcreate.
    injection Hcreate as _ <-. apply fill_array_success.
    - apply shape_np_empty.
    - intros s y g Hs Hy Hg. destruct (Hrow s y Hs Hy) as (r & Hm & Hr).
      exists (default 0 (grade_column g r)).
      split; [by apply cell_value_one_row|].
      unfold grades_in_int64 in Hfit. rewrite Forall_forall in Hfit.
      specialize (Hfit r Hr). rewrite Forall_forall in Hfit.
      specialize (Hfit g Hg). destruct (grade_column g r); [done|].
      simpl. unfold in_int64, int64_min, int64_max. lia. }
  destruct (create_enrollment_array_None _ _ _ Hcreate) as (a & -> & _ & Hcell).
  eexists; exists a. split_and!; [done..|].
  intros i j k s y g Hs Hy Hg.
  destruct (Hrow s y) as (r & Hm & _); [by eapply list_elem_of_lookup_2..|].
  exists r. split; [done|].
  destruct (Hcell i j k s y g Hs Hy Hg) as (v & Hv & _ & ->).
  rewrite (cell_value_one_row _ _ _ _ r Hm) in Hv. by simplify_eq.
Qed.

Lemma create_enrollment_array_cells_witness :
  getitem [[[400; 420; 600]; [450; 0; 610]]] 0 1 1 = Some 0
  ∧ ∃ self a,
    create_enrollment_array (λ _ _ _, 77) (SchoolStats_init lincoln) = (self, None) ∧
    enrollment_array self = Some a ∧
    ∀ i j k s y g,
      unique (School_Name <$> lincoln) !! i = Some s →
      unique (School_Year <$> lincoln) !! j = Some y →
      grades !! k = Some g →
      ∃ r, matching_rows lincoln s y = [r] ∧
           getitem a i j k = Some (default 0 (grade_column g r)).
Proof.
  split.
  - apply (proj1 (create_enrollment_array_cells (λ _ _ _, 77) lincoln)
             (create_enrollment_array (λ _ _ _, 77) (SchoolStats_init lincoln)).1
             _ 0%nat 1%nat 1%nat "Lincoln" 2014 Grade11
             (mkRow "Lincoln" 100 2014 (Some 450) None (Some 610)));
      first [reflexivity | by_compute].
  - apply (proj2 (create_enrollment_array_cells (λ _ _ _, 77) lincoln));
      by_compute.
Defined.

(** C8. The construction is a function of the table alone: whatever the
    freshly allocated array holds before the loops run, two runs on the same
    object end alike -- the same exception, or the same object with the same
    array, cell for cell -- and running the construction again on the object
    it produced changes nothing. *)
Theorem create_enrollment_array_deterministic junk1 junk2 self :
  outcome (create_enrollment_array junk1 self) =
    outcome (create_enrollment_array junk2 self)
  ∧ outcome (create_enrollment_array junk2
               (create_enrollment_array junk1 self).1) =
    outcome (create_enrollment_array junk1 self).
Proof.
  assert (Hruns : ∀ j1 j2, outcome (create_enrollment_array j1 self) =
                           outcome (create_enrollment_array j2 self)).
  { intros j1 j2.
    destruct (create_enrollment_array j1 self) as [s1 e1] eqn:H1,
             (create_enrollment_array j2 self) as [s2 e2] eqn:H2.
    assert (e1 = e2) as <-.
    { rewrite create_enrollment_array_unfold in H1, H2. cbv zeta in H1, H2.
      injection H1 as _ <-. injection H2 as _ <-.
      rewrite !fill_array_flat. apply cells_exn. by rewrite !shape_np_empty. }
    destruct e1 as [e|]; [done|]. simpl. f_equal.
    apply create_enrollment_array_None in H1 as (a1 & -> & Hs1 & Hc1).
    apply create_enrollment_array_None in H2 as (a2 & -> & Hs2 & Hc2).
    do 2 f_equal. apply cube_eq; [congruence|]. intros i j k.
    destruct (decide (i < length (unique (School_Name <$> data self)) ∧
                      j < length (unique (School_Year <$> data self)) ∧
                      k < length grades)%nat) as [(Hi & Hj & Hk)|Hout].
    - apply lookup_lt_is_Some in Hi as [s Hs], Hj as [y Hy], Hk as [g Hg].
      destruct (Hc1 i j k s y g Hs Hy Hg) as (v1 & Hv1 & _ & ->).
      destruct (Hc2 i j k s y g Hs Hy Hg) as (v2 & Hv2 & _ & ->).
      congruence.
    - pose proof (shape_in_range _ _ _ i j k a1 Hs1) as Hr1.
      pose proof (shape_in_range _ _ _ i j k a2 Hs2) as Hr2.
      destruct (getitem a1 i j k) eqn:Hg1.
      { destruct Hout. apply Hr1. by eexists. }
      destruct (getitem a2 i j k) eqn:Hg2; [|done].
      destruct Hout. apply Hr2. by eexists. }
  split; [apply Hruns|].
  rewrite (Hruns junk1 junk2).
  by rewrite !create_enrollment_array_unfold.
Qed.

(** C9. The keys of the dictionary, in insertion order, are the distinct
    school names in order of first appearance, the order of the first axis
    of the array. So for every identifier that [get_school_index] accepts,
    the position [p] it returns is below the number of distinct names, the
    name at position [p] of that order is the one the identifier resolved
    to, and the cells at position [p] of the first axis are the ones
    computed from the rows of that school. *)
Theorem resolved_position_indexes_array junk data self ident p :
  create_enrollment_array junk (SchoolStats_init data) = (self, None) →
  get_school_index self ident = Ok p →
  dict_keys (school_codes self) = unique (School_Name <$> data) ∧
  (p < length (unique (School_Name <$> data)))%nat ∧
  ∃ name a,
    resolved_name self ident = Some name ∧
    unique (School_Name <$> data) !! p = Some name ∧
    enrollment_array self = Some a ∧
    ∀ j y k g,
      unique (School_Year <$> data) !! j = Some y → grades !! k = Some g →
      ∃ v, cell_value data name y g = Ok v ∧ getitem a p j k = Some v.
Proof.
  intros (a & Hself & _ & Hcell)%create_enrollment_array_None Hidx.
  assert (school_codes self = school_codes (SchoolStats_init data)) as Hcodes
    by by rewrite Hself.
  assert (enrollment_array self = Some a) as Harr by by rewrite Hself.
  destruct (get_school_index_Ok _ _ _ Hidx) as (name & Hres & Hp).
  rewrite Hcodes, school_codes_keys in Hp |- *.
  split_and!; [done | by eapply lookup_lt_Some |].
  exists name, a. split_and!; [done..|].
  intros j y k g Hy Hg.
  destruct (Hcell p j k name y g Hp Hy Hg) as (v & ? & _ & ?). by exists v.
Qed.

Lemma resolved_position_indexes_array_witness :
  dict_keys (school_codes (create_enrollment_array (λ _ _ _, 77)
                             (SchoolStats_init shared_code)).1) =
    unique (School_Name <$> shared_code) ∧
  (1 < length (unique (School_Name <$> shared_code)))%nat ∧
  ∃ name a,
    resolved_name (create_enrollment_array (λ _ _ _, 77)
                     (SchoolStats_init shared_code)).1 (IdStr "Baker") = Some name ∧
    unique (School_Name <$> shared_code) !! 1%nat = Some name ∧
    enrollment_array (create_enrollment_array (λ _ _ _, 77)
                        (SchoolStats_init shared_code)).1 = Some a ∧
    ∀ j y k g,
      unique (School_Year <$> shared_code) !! j = Some y → grades !! k = Some g →
      ∃ v, cell_value shared_code name y g = Ok v ∧ getitem a 1 j k = Some v.
Proof.
  apply (resolved_position_indexes_array (λ _ _ _, 77) shared_code _
           (IdStr "Baker") 1); reflexivity.
Defined.

(** ** Reductions *)

Section reduction_facts.
Implicit Types (l : list Z) (m : matrix).

Lemma wrap64_idemp_l a b : wrap64 (wrap64 a + b) = wrap64 (a + b).
Proof.
  unfold wrap64. f_equal.
  replace ((a + 2 ^ 63) `mod` 2 ^ 64 - 2 ^ 63 + b + 2 ^ 63)
    with ((a + 2 ^ 63) `mod` 2 ^ 64 + b) by lia.
  rewrite Zplus_mod_idemp_l. f_equal. lia.
Qed.

Lemma wrap64_in_range z : in_int64 z → wrap64 z = z.
Proof.
  unfold in_int64, int64_min, int64_max, wrap64. intros ?.
  rewrite Z.mod_small; lia.
Qed.

Lemma foldl_wrap64 l c :
  foldl (λ acc x, wrap64 (acc + x)) (wrap64 c) l = wrap64 (c + Zsum l).
Proof.
  revert c. induction l as [|x l IH]; intros c; simpl.
  - f_equal. lia.
  - rewrite wrap64_idemp_l, IH. f_equal. lia.
Qed.

(** The [int64] accumulator ends at the sum, wrapped once. *)
Lemma np_sum_wrap64 l : np_sum l = wrap64 (Zsum l).
Proof. apply (foldl_wrap64 l 0). Qed.

Lemma Zsum_app l1 l2 : Zsum (l1 ++ l2) = Zsum l1 + Zsum l2.
Proof. induction l1 as [|x l1 IH]; simpl; [done|]. rewrite IH. lia. Qed.

Lemma Zsum_mjoin m : Zsum (mjoin m) = Zsum (Zsum <$> m).
Proof.
  induction m as [|r m IH]; csimpl; [done|]. by rewrite Zsum_app, IH.
Qed.

Lemma np_max_Ok l : l ≠ [] → ∃ v, np_max l = Ok v.
Proof. destruct l; [done|]. by eexists. Qed.

Lemma np_min_Ok l : l ≠ [] → ∃ v, np_min l = Ok v.
Proof. destruct l; [done|]. by eexists. Qed.

Lemma column_Ok m (c : nat) :
  Forall (λ r : list Z, (c < length r)%nat) m → ∃ col, column m c = Ok col.
Proof.
  intros Hall. unfold column.
  destruct (mapM (.!! c) m) as [col|] eqn:Hcol; [by eexists|].
  assert (is_Some (mapM (.!! c) m)) as [? ?]; [|congruence].
  apply mapM_is_Some. eapply Forall_impl; [done|].
  intros r ?. by apply lookup_lt_is_Some.
Qed.

End reduction_facts.

(** ** float64 rounding *)

(** [rne p q] is an integer nearest to [p / q], and the even one of the two
    when [p / q] is half-way between them. *)
Lemma rne_nearest (p : Z) (q : positive) :
  2 * Z.abs (p - rne p q * Z.pos q) ≤ Z.pos q ∧
  (2 * Z.abs (p - rne p q * Z.pos q) = Z.pos q → Z.even (rne p q) = true).
Proof.
  unfold rne.
  pose proof (Z.div_mod p (Z.pos q) ltac:(lia)) as Hdm.
  pose proof (Z.mod_pos_bound p (Z.pos q) ltac:(lia)) as Hr.
  set (fl := p / Z.pos q) in *. set (r := p `mod` Z.pos q) in *.
  destruct (Z.compare_spec (2 * r) (Z.pos q)) as [Heq|Hlt|Hgt].
  - destruct (Z.even fl) eqn:Hev.
    + split; [lia|done].
    + split; [lia|]. intros _. rewrite Z.even_add, Hev. done.
  - split; lia.
  - split; lia.
Qed.

Lemma rne_lower (p : Z) (q : positive) (k : Z) :
  k * Z.pos q ≤ p → k ≤ rne p q.
Proof.
  intros Hk. unfold rne.
  assert (k ≤ p / Z.pos q) by (apply Z.div_le_lower_bound; lia).
  destruct (_ ?= _); [destruct (Z.even _)|..]; lia.
Qed.

Lemma rne_upper (p : Z) (q : positive) (k : Z) :
  p ≤ k * Z.pos q → rne p q ≤ k.
Proof.
  intros Hk. unfold rne.
  pose proof (Z.div_mod p (Z.pos q) ltac:(lia)) as Hdm.
  pose proof (Z.mod_pos_bound p (Z.pos q) ltac:(lia)) as Hr.
  destruct (Z.eq_dec (p `mod` Z.pos q) 0) as [Hz|Hnz].
  - rewrite Hz. simpl. assert (p / Z.pos q ≤ k) by nia. done.
  - assert (p / Z.pos q < k) by nia.
    destruct (_ ?= _); [destruct (Z.even _)|..]; lia.
Qed.

Lemma binade_lower (p : Z) (q : positive) :
  0 < p →
  Z.pos q * 2 ^ Z.max (binade p q) 0 ≤ p * 2 ^ Z.max (- binade p q) 0.
Proof.
  intros Hp. unfold binade.
  set (Lp := Z.log2 p). set (Lq := Z.log2 (Z.pos q)).
  destruct (decide _) as [Hle|_]; [done|].
  assert (0 ≤ Lp) by apply Z.log2_nonneg.
  assert (0 ≤ Lq) by apply Z.log2_nonneg.
  assert (2 ^ Lp ≤ p) by (apply Z.log2_spec; lia).
  assert (Z.pos q < 2 ^ (Lq + 1)).
  { replace (Lq + 1) with (Z.succ Lq) by lia. apply Z.log2_spec. lia. }
  destruct (Z.le_gt_cases 0 (Lp - Lq - 1)) as [Hb|Hb].
  - rewrite Z.max_l, Z.max_r by lia. rewrite Z.pow_0_r, Z.mul_1_r.
    replace (2 ^ Lp) with (2 ^ (Lq + 1) * 2 ^ (Lp - Lq - 1)) in *
      by (rewrite <- Z.pow_add_r by lia; f_equal; lia).
    assert (0 < 2 ^ (Lp - Lq - 1)) by (apply Z.pow_pos_nonneg; lia). nia.
  - rewrite Z.max_r, Z.max_l by lia. rewrite Z.pow_0_r, Z.mul_1_r.
    assert (2 ^ (Lq + 1) = 2 ^ Lp * 2 ^ (- (Lp - Lq - 1))) as Heq
      by (rewrite <- Z.pow_add_r by lia; f_equal; lia).
    assert (0 < 2 ^ (- (Lp - Lq - 1))) by (apply Z.pow_pos_nonneg; lia). nia.
Qed.

(** [p / q] is below [2^(b+1)] for the exponent [b] that [binade] gives. *)
Lemma binade_upper_spec (p : Z) (q : positive) :
  0 < p →
  p * 2 ^ Z.max (- (binade p q + 1)) 0 < Z.pos q * 2 ^ Z.max (binade p q + 1) 0.
Proof.
  intros Hp. unfold binade.
  set (Lp := Z.log2 p). set (Lq := Z.log2 (Z.pos q)).
  destruct (decide _) as [_|Hlt].
  - assert (0 ≤ Lp) by apply Z.log2_nonneg.
    assert (0 ≤ Lq) by apply Z.log2_nonneg.
    assert (p < 2 ^ (Lp + 1)).
    { replace (Lp + 1) with (Z.succ Lp) by lia. apply Z.log2_spec. lia. }
    assert (2 ^ Lq ≤ Z.pos q) by (apply Z.log2_spec; lia).
    destruct (Z.le_gt_cases 0 (Lp - Lq + 1)) as [Hb|Hb].
    + rewrite Z.max_r, Z.max_l by lia. rewrite Z.pow_0_r, Z.mul_1_r.
      assert (2 ^ (Lp + 1) = 2 ^ Lq * 2 ^ (Lp - Lq + 1)) as Heq
        by (rewrite <- Z.pow_add_r by lia; f_equal; lia).
      assert (0 < 2 ^ (Lp - Lq + 1)) by (apply Z.pow_pos_nonneg; lia). nia.
    + rewrite Z.max_l, Z.max_r by lia. rewrite Z.pow_0_r, Z.mul_1_r.
      assert (2 ^ Lq = 2 ^ (Lp + 1) * 2 ^ (- (Lp - Lq + 1))) as Heq
        by (rewrite <- Z.pow_add_r by lia; f_equal; lia).
      assert (0 < 2 ^ (- (Lp - Lq + 1))) by (apply Z.pow_pos_nonneg; lia). nia.
  - apply Z.nle_gt in Hlt. fold Lp Lq in Hlt |- *.
    replace (Lp - Lq - 1 + 1) with (Lp - Lq) by lia. done.
Qed.

Lemma binade_upper (p : Z) (q : positive) (j : Z) :
  0 < p → 0 ≤ j → p * 2 ^ j < 2 ^ 53 * Z.pos q → binade p q ≤ 52 - j.
Proof.
  intros Hp Hj Hlt. pose proof (binade_lower p q Hp) as Hlow.
  set (b := binade p q) in *.
  destruct (Z.le_gt_cases b (52 - j)) as [|Hb]; [done|exfalso].
  assert (0 < 2 ^ j) by (apply Z.pow_pos_nonneg; lia).
  destruct (Z.le_gt_cases 0 b) as [Hb0|Hb0].
  - rewrite Z.max_l, Z.max_r in Hlow by lia.
    rewrite Z.pow_0_r, Z.mul_1_r in Hlow.
    assert (2 ^ 53 ≤ 2 ^ (b + j)) by (apply Z.pow_le_mono_r; lia).
    rewrite Z.pow_add_r in * by lia. nia.
  - rewrite Z.max_r, Z.max_l in Hlow by lia.
    rewrite Z.pow_0_r, Z.mul_1_r in Hlow.
    assert (2 ^ 53 ≤ 2 ^ (j + b)) by (apply Z.pow_le_mono_r; lia).
    assert (2 ^ j = 2 ^ (j + b) * 2 ^ (- b)) as Heq
      by (rewrite <- Z.pow_add_r by lia; f_equal; lia).
    assert (0 < 2 ^ (- b)) by (apply Z.pow_pos_nonneg; lia).
    assert (0 < 2 ^ (j + b)) by (apply Z.pow_pos_nonneg; lia).
    nia.
Qed.

Lemma Zpos_to_pos_pow (j : Z) : 0 ≤ j → Z.pos (Z.to_pos (2 ^ j)) = 2 ^ j.
Proof. intros. apply Z2Pos.id. apply Z.pow_pos_nonneg; lia. Qed.

(** The integer to which [round_pos] rounds is a significand of 53 bits, or
    [2^53] when the rounding carries into the next binade. *)
Lemma round_pos_significand (p : Z) (q : positive) :
  0 < p →
  2 ^ 52 ≤ rne (p * 2 ^ Z.max (- (binade p q - 52)) 0)
               (q * Z.to_pos (2 ^ Z.max (binade p q - 52) 0)) ≤ 2 ^ 53.
Proof.
  intros Hp. pose proof (binade_lower p q Hp) as Hlo.
  pose proof (binade_upper_spec p q Hp) as Hup.
  set (b := binade p q) in *.
  assert (Z.pos (q * Z.to_pos (2 ^ Z.max (b - 52) 0)) =
          Z.pos q * 2 ^ Z.max (b - 52) 0) as Hq.
  { rewrite Pos2Z.inj_mul, Zpos_to_pos_pow by lia. done. }
  assert (∀ x y, 0 ≤ x → 0 ≤ y → 2 ^ (x + y) = 2 ^ x * 2 ^ y) as Hadd
    by (intros; by apply Z.pow_add_r).
  assert (∀ x, 0 ≤ x → 0 < 2 ^ x) as Hpos
    by (intros; apply Z.pow_pos_nonneg; lia).
  split.
  - apply rne_lower. rewrite Hq.
    destruct (Z.le_gt_cases 52 b) as [Hb|Hb].
    + rewrite (Z.max_r (- (b - 52))), (Z.max_l (b - 52)) by lia.
      rewrite Z.max_l, Z.max_r in Hlo by lia.
      rewrite Z.pow_0_r, Z.mul_1_r in *.
      replace b with (52 + (b - 52)) in Hlo by lia.
      rewrite Hadd in Hlo by lia. lia.
    + rewrite (Z.max_l (- (b - 52))), (Z.max_r (b - 52)) by lia.
      rewrite Z.pow_0_r, Z.mul_1_r.
      destruct (Z.le_gt_cases 0 b) as [Hb0|Hb0].
      * rewrite Z.max_l, Z.max_r in Hlo by lia.
        rewrite Z.pow_0_r, Z.mul_1_r in Hlo.
        pose proof (Hadd b (- (b - 52)) ltac:(lia) ltac:(lia)) as Heq.
        replace (b + - (b - 52)) with 52 in Heq by lia.
        pose proof (Hpos (- (b - 52)) ltac:(lia)). nia.
      * rewrite Z.max_r, Z.max_l in Hlo by lia.
        rewrite Z.pow_0_r, Z.mul_1_r in Hlo.
        pose proof (Hadd 52 (- b) ltac:(lia) ltac:(lia)) as Heq.
        replace (52 + - b) with (- (b - 52)) in Heq by lia.
        pose proof (Hpos (- b) ltac:(lia)). nia.
  - apply rne_upper. rewrite Hq.
    destruct (Z.le_gt_cases 52 b) as [Hb|Hb].
    + rewrite (Z.max_r (- (b - 52))), (Z.max_l (b - 52)) by lia.
      rewrite Z.max_r, Z.max_l in Hup by lia.
      rewrite Z.pow_0_r, Z.mul_1_r in *.
      replace (b + 1) with (53 + (b - 52)) in Hup by lia.
      rewrite Hadd in Hup by lia. lia.
    + rewrite (Z.max_l (- (b - 52))), (Z.max_r (b - 52)) by lia.
      rewrite Z.pow_0_r, Z.mul_1_r.
      destruct (Z.le_gt_cases 0 (b + 1)) as [Hb0|Hb0].
      * rewrite Z.max_r, Z.max_l in Hup by lia.
        rewrite Z.pow_0_r, Z.mul_1_r in Hup.
        pose proof (Hadd (b + 1) (- (b - 52)) ltac:(lia) ltac:(lia)) as Heq.
        replace (b + 1 + - (b - 52)) with 53 in Heq by lia.
        pose proof (Hpos (- (b - 52)) ltac:(lia)). nia.
      * rewrite Z.max_l, Z.max_r in Hup by lia.
        rewrite Z.pow_0_r, Z.mul_1_r in Hup.
        pose proof (Hadd 53 (- (b + 1)) ltac:(lia) ltac:(lia)) as Heq.
        replace (53 + - (b + 1)) with (- (b - 52)) in Heq by lia.
        pose proof (Hpos (- (b + 1)) ltac:(lia)). nia.
Qed.

(** A positive rational between two multiples of [2^-j] that float64
    represents is rounded to a float64 between them. *)
Lemma round_pos_between (p : Z) (q : positive) (j lo hi : Z) :
  0 < p → 0 ≤ j → hi < 2 ^ 53 →
  lo * Z.pos q ≤ p * 2 ^ j ≤ hi * Z.pos q →
  (lo # Z.to_pos (2 ^ j) <= round_pos p q)%Q ∧
  (round_pos p q <= hi # Z.to_pos (2 ^ j))%Q.
Proof.
  intros Hp Hj Hhi [Hlo Hup].
  assert (p * 2 ^ j < 2 ^ 53 * Z.pos q) as Hlt by nia.
  pose proof (binade_upper p q j Hp Hj Hlt) as Hb.
  unfold round_pos. set (e := binade p q - 52) in *.
  set (s := - e). assert (j ≤ s) by lia.
  rewrite (Z.max_l (- e)), (Z.max_r e) by lia.
  change (2 ^ 0) with 1. change (Z.to_pos 1) with 1%positive.
  rewrite Pos.mul_1_r, Z.mul_1_r. fold s.
  assert (0 < 2 ^ j) by (apply Z.pow_pos_nonneg; lia).
  assert (0 < 2 ^ (s - j)) by (apply Z.pow_pos_nonneg; lia).
  assert (2 ^ s = 2 ^ (s - j) * 2 ^ j) as Hs
    by (rewrite <- Z.pow_add_r by lia; f_equal; lia).
  assert (lo * 2 ^ (s - j) ≤ rne (p * 2 ^ s) q) by (apply rne_lower; nia).
  assert (rne (p * 2 ^ s) q ≤ hi * 2 ^ (s - j)) by (apply rne_upper; nia).
  rewrite Qred_correct. unfold Qle. cbn [Qnum Qden].
  rewrite !Zpos_to_pos_pow by lia. nia.
Qed.

Lemma float64_round_canon (x : Q) : Qred (float64_round x) = float64_round x.
Proof.
  unfold float64_round, round_pos. destruct (Qnum (Qred x)); [done|..].
  - apply Qcanon.Qred_involutive.
  - by rewrite Qred_opp, Qcanon.Qred_involutive.
Qed.

(** A non-negative rational between two multiples of [2^-j] that float64
    represents is rounded to a float64 between them. *)
Lemma float64_round_between (x : Q) (j lo hi : Z) :
  0 ≤ j → 0 ≤ lo → hi < 2 ^ 53 →
  (lo # Z.to_pos (2 ^ j) <= x)%Q → (x <= hi # Z.to_pos (2 ^ j))%Q →
  (lo # Z.to_pos (2 ^ j) <= float64_round x)%Q ∧
  (float64_round x <= hi # Z.to_pos (2 ^ j))%Q.
Proof.
  intros Hj Hlo0 Hhi Hlo Hup.
  rewrite <- (Qred_correct x) in Hlo, Hup. unfold float64_round.
  destruct (Qred x) as [n d]. unfold Qle in Hlo, Hup. cbn [Qnum Qden] in *.
  rewrite Zpos_to_pos_pow in Hlo, Hup by lia.
  assert (0 < 2 ^ j) by (apply Z.pow_pos_nonneg; lia).
  destruct n as [|p|p].
  - unfold Qle. cbn [Qnum Qden]. lia.
  - apply round_pos_between; [lia..|]. lia.
  - nia.
Qed.

(** A multiple of [2^-j] with a numerator below [2^53] is a float64. *)
Lemma float64_round_exact (x : Q) (j t : Z) :
  0 ≤ j → 0 ≤ t < 2 ^ 53 → (x == t # Z.to_pos (2 ^ j))%Q →
  float64_round x = Qred x.
Proof.
  intros Hj Ht Hx.
  destruct (float64_round_between x j t t) as [Hlo Hup]; [lia..| | |].
  { rewrite Hx. apply Qle_refl. }
  { rewrite Hx. apply Qle_refl. }
  rewrite <- float64_round_canon. apply Qred_complete.
  etrans; [by apply Qle_antisym|]. by symmetry.
Qed.

Lemma float64_round_Z (z : Z) :
  0 ≤ z < 2 ^ 53 → float64_round (inject_Z z) = inject_Z z.
Proof.
  intros Hz. rewrite (float64_round_exact _ 0 z); [|lia|done|done].
  apply inject_Z_Qred.
Qed.

(** ** The order of summation *)

Lemma reshape_replicate_spec {A} (n k : nat) (l : list A) :
  (k * n ≤ length l)%nat →
  Forall (λ g, length g = n) (reshape (replicate k n) l) ∧
  mjoin (reshape (replicate k n) l) = take (k * n) l.
Proof.
  revert l. induction k as [|k IH]; intros l Hlen; simpl; [done|].
  destruct (IH (drop n l)) as [IH1 IH2]; [rewrite length_drop; lia|].
  split.
  - constructor; [rewrite length_take; lia|done].
  - rewrite IH2. apply take_take_drop.
Qed.

Lemma sum_list_app_nat (l1 l2 : list nat) :
  sum_list (l1 ++ l2) = (sum_list l1 + sum_list l2)%nat.
Proof. induction l1 as [|x l1 IH]; simpl; lia. Qed.

(** ** Summation in a commutative monoid *)

Section add_reduce_monoid.
Context {A : Type} (add : A → A → A) (zero : A).
Context `{!Assoc (=) add, !Comm (=) add, !LeftId (=) zero add}.

Lemma msum_app l1 l2 :
  msum add zero (l1 ++ l2) = add (msum add zero l1) (msum add zero l2).
Proof.
  induction l1 as [|x l1 IH]; simpl; [by rewrite (left_id zero add)|].
  by rewrite IH, (assoc add).
Qed.

Lemma foldl_add_msum l a : foldl add a l = add a (msum add zero l).
Proof.
  revert a. induction l as [|x l IH]; intros a; simpl.
  - by rewrite (comm add), (left_id zero add).
  - by rewrite IH, (assoc add).
Qed.

Lemma msum_zip_with r c :
  length r = length c →
  msum add zero (zip_with add r c) = add (msum add zero r) (msum add zero c).
Proof.
  revert c. induction r as [|x r IH]; intros [|y c] ?; simplify_eq/=.
  - by rewrite (left_id zero add).
  - rewrite IH by done. rewrite <- !(assoc add). f_equal.
    rewrite !(assoc add). f_equal. apply (comm add).
Qed.

Lemma foldl_zip_with_msum gs r :
  Forall (λ g, length g = length r) gs →
  length (foldl (zip_with add) r gs) = length r ∧
  msum add zero (foldl (zip_with add) r gs) =
    add (msum add zero r) (msum add zero (mjoin gs)).
Proof.
  revert r. induction gs as [|g gs IH]; intros r Hall; csimpl.
  - split; [done|]. by rewrite (comm add), (left_id zero add).
  - apply Forall_cons in Hall as [Hg Hall].
    assert (length (zip_with add r g) = length r) as Hlen
      by (rewrite length_zip_with; lia).
    destruct (IH (zip_with add r g)) as [IH1 IH2].
    { eapply Forall_impl; [done|]. simpl. intros; congruence. }
    split; [congruence|].
    by rewrite IH2, msum_zip_with, msum_app, (assoc add).
Qed.

Lemma sum_lanes_msum l :
  (8 ≤ length l)%nat → sum_lanes add zero l = msum add zero l.
Proof.
  intros Hlen. unfold sum_lanes.
  set (rest := drop 8 l). set (groups := (length rest / 8)%nat).
  assert (groups * 8 ≤ length rest)%nat as Hfull.
  { unfold groups. pose proof (Nat.div_mod_eq (length rest) 8). lia. }
  destruct (foldl_zip_with_msum (reshape (replicate groups 8%nat) rest)
              (take 8 l)) as [Hr Hsum].
  { rewrite length_take, Nat.min_l by done.
    by apply reshape_replicate_spec. }
  rewrite length_take, Nat.min_l in Hr by done.
  rewrite (proj2 (reshape_replicate_spec 8 groups rest Hfull)) in Hsum.
  rewrite foldl_add_msum.
  rewrite <- (take_drop 8 l) at 2.
  rewrite msum_app. fold rest.
  rewrite <- (take_drop (groups * 8) rest) at 3.
  rewrite msum_app, (assoc add), <- Hsum. f_equal.
  destruct (foldl _ _ _)
    as [|r0 [|r1 [|r2 [|r3 [|r4 [|r5 [|r6 [|r7 [|??]]]]]]]]];
    simplify_eq/=.
  rewrite (comm add r7 zero), (left_id zero add).
  by rewrite !(assoc add).
Qed.

Lemma pairwise_sum_msum depth l :
  (length l ≤ depth)%nat → pairwise_sum add zero depth l = msum add zero l.
Proof.
  revert l. induction depth as [|depth IH]; intros l Hlen.
  - destruct l; [done|simpl in Hlen; lia].
  - cbn [pairwise_sum].
    destruct (decide (length l < 8)%nat).
    { unfold sum_sequential. by rewrite foldl_add_msum, (left_id zero add). }
    destruct (decide (length l ≤ 128)%nat); [apply sum_lanes_msum; lia|].
    set (n2 := (length l / 2 - (length l / 2) `mod` 8)%nat).
    assert (0 < n2 < length l)%nat.
    { unfold n2. pose proof (Nat.div_mod_eq (length l) 2).
      pose proof (Nat.mod_upper_bound (length l) 2).
      pose proof (Nat.mod_upper_bound (length l / 2) 8). lia. }
    rewrite !IH by (rewrite ?length_take, ?length_drop; lia).
    by rewrite <- msum_app, take_drop.
Qed.

Lemma add_reduce_msum l : add_reduce add zero l = msum add zero l.
Proof.
  unfold add_reduce.
  assert (∀ bs a,
    foldl (λ acc buffer, add acc (pairwise_sum add zero (length buffer) buffer))
      a bs = add a (msum add zero (mjoin bs))) as Hfold.
  { induction bs as [|b bs IH]; intros a; csimpl.
    - by rewrite (comm add), (left_id zero add).
    - by rewrite IH, pairwise_sum_msum, msum_app, (assoc add). }
  rewrite Hfold, (left_id zero add). unfold buffers.
  rewrite join_reshape; [done|].
  rewrite sum_list_app_nat, sum_list_replicate.
  generalize buffer_size. intros b.
  pose proof (Nat.div_mod_eq (length l) b).
  destruct (decide _); simpl; lia.
Qed.
End add_reduce_monoid.

(** The bound on the halvings is not reached: any bound that is at least
    the length gives the same sum. *)
Lemma pairwise_sum_depth {A} (add : A → A → A) (zero : A) depth depth' l :
  (length l ≤ depth)%nat → (length l ≤ depth')%nat →
  pairwise_sum add zero depth l = pairwise_sum add zero depth' l.
Proof.
  revert depth' l. induction depth as [|depth IH]; intros depth' l Hd Hd'.
  - destruct l; [|simpl in Hd; lia]. by destruct depth'.
  - destruct depth' as [|depth'].
    { destruct l; [done|simpl in Hd'; lia]. }
    cbn [pairwise_sum]. destruct (decide _); [done|].
    destruct (decide _); [done|].
    set (n2 := (length l / 2 - (length l / 2) `mod` 8)%nat).
    assert (0 < n2 < length l)%nat.
    { unfold n2. pose proof (Nat.div_mod_eq (length l) 2).
      pose proof (Nat.mod_upper_bound (length l) 2).
      pose proof (Nat.mod_upper_bound (length l / 2) 8). lia. }
    f_equal; apply IH; rewrite ?length_take, ?length_drop; lia.
Qed.

(** ** Summation on related carriers *)

Section add_reduce_related.
Context {A B : Type} (R : A → B → Prop).
Context (addA : A → A → A) (zeroA : A) (addB : B → B → B) (zeroB : B).
Hypothesis R_zero : R zeroA zeroB.
Hypothesis R_add :
  ∀ a b a' b', R a b → R a' b' → R (addA a a') (addB b b').

Lemma foldl_related l k a b :
  R a b → Forall2 R l k → R (foldl addA a l) (foldl addB b k).
Proof.
  intros Hab Hlk. revert a b Hab.
  induction Hlk as [|x y l k Hxy _ IH]; intros a b Hab; simpl; [done|].
  apply IH. by apply R_add.
Qed.

Lemma zip_with_related l k l' k' :
  Forall2 R l k → Forall2 R l' k' →
  Forall2 R (zip_with addA l l') (zip_with addB k k').
Proof.
  intros Hlk. revert l' k'.
  induction Hlk as [|x y l k Hxy _ IH]; intros l' k' Hlk'; simpl;
    [constructor|].
  destruct Hlk' as [|x' y' l' k' Hxy' Hlk']; constructor; auto.
Qed.

Lemma reshape_related szs l k :
  Forall2 R l k → Forall2 (Forall2 R) (reshape szs l) (reshape szs k).
Proof.
  revert l k. induction szs as [|sz szs IH]; intros l k Hlk; simpl;
    constructor.
  - by apply Forall2_take.
  - by apply IH, Forall2_drop.
Qed.

Lemma sum_lanes_related l k :
  Forall2 R l k → R (sum_lanes addA zeroA l) (sum_lanes addB zeroB k).
Proof.
  intros Hlk. unfold sum_lanes.
  rewrite <- (Forall2_length _ _ _ (Forall2_drop _ _ _ 8 Hlk)).
  set (groups := (length (drop 8 l) / 8)%nat).
  apply foldl_related; [|by do 2 apply Forall2_drop].
  assert (Forall2 R
    (foldl (zip_with addA) (take 8 l)
       (reshape (replicate groups 8%nat) (drop 8 l)))
    (foldl (zip_with addB) (take 8 k)
       (reshape (replicate groups 8%nat) (drop 8 k)))) as Hr.
  { pose proof (reshape_related (replicate groups 8%nat) _ _
                  (Forall2_drop _ _ _ 8 Hlk)) as Hgs.
    pose proof (Forall2_take _ _ _ 8 Hlk) as Hr.
    revert Hr. generalize (take 8 l) (take 8 k).
    induction Hgs as [|g g' gs gs' Hg _ IH]; intros r r' Hr; simpl; [done|].
    apply IH. by apply zip_with_related. }
  repeat (destruct Hr as [|?? ?? ? Hr]; [done|]).
  destruct Hr; [|done]. auto 10.
Qed.

Lemma pairwise_sum_related depth l k :
  Forall2 R l k →
  R (pairwise_sum addA zeroA depth l) (pairwise_sum addB zeroB depth k).
Proof.
  revert l k. induction depth as [|depth IH]; intros l k Hlk;
    cbn [pairwise_sum]; rewrite <- (Forall2_length _ _ _ Hlk).
  - destruct (decide _); [by apply foldl_related|].
    destruct (decide _); [by apply sum_lanes_related|done].
  - destruct (decide _); [by apply foldl_related|].
    destruct (decide _); [by apply sum_lanes_related|].
    apply R_add; apply IH; [by apply Forall2_take|by apply Forall2_drop].
Qed.

Lemma add_reduce_related l k :
  Forall2 R l k → R (add_reduce addA zeroA l) (add_reduce addB zeroB k).
Proof.
  intros Hlk. unfold add_reduce, buffers.
  rewrite <- (Forall2_length _ _ _ Hlk).
  generalize (replicate (length l / buffer_size) buffer_size ++
     (if decide (length l `mod` buffer_size = 0)%nat then []
      else [(length l `mod` buffer_size)%nat])).
  intros szs. pose proof (reshape_related szs _ _ Hlk) as Hbs.
  assert (∀ bs bs' a b, R a b → Forall2 (Forall2 R) bs bs' →
    R (foldl (λ acc buffer,
                addA acc (pairwise_sum addA zeroA (length buffer) buffer))
         a bs)
      (foldl (λ acc buffer,
                addB acc (pairwise_sum addB zeroB (length buffer) buffer))
         b bs'))
    as Hfold; [|by apply Hfold].
  clear Hbs Hlk. intros bs bs' a b Hab Hbs. revert a b Hab.
  induction Hbs as [|x y bs bs' Hxy _ IH]; intros a b Hab; simpl; [done|].
  apply IH, R_add; [done|].
  rewrite <- (Forall2_length _ _ _ Hxy). by apply pairwise_sum_related.
Qed.
End add_reduce_related.

(** ** float64 sums that are exact *)

Section exact_sums.
Implicit Types (l : list Z).

Lemma float64_add_exactly a n a' n' :
  exactly a n → exactly a' n' → exactly (float64_add a a') (n + n')%N.
Proof.
  unfold exactly. intros Ha Ha' Hlt.
  rewrite Ha, Ha' by lia. unfold float64_add.
  rewrite <- inject_Z_plus, float64_round_Z by lia. f_equal. lia.
Qed.

Lemma add_reduce_exact l :
  Forall (λ v, 0 ≤ v) l → Zsum l < 2 ^ 53 →
  add_reduce float64_add 0%Q (float64_of_int <$> l) = inject_Z (Zsum l).
Proof.
  intros Hpos Hsum.
  pose proof (add_reduce_related exactly float64_add 0%Q N.add 0%N) as Hrel.
  specialize (Hrel ltac:(done) float64_add_exactly
                (float64_of_int <$> l) (Z.to_N <$> l)).
  rewrite (add_reduce_msum N.add 0%N) in Hrel.
  assert (msum N.add 0%N (Z.to_N <$> l) = Z.to_N (Zsum l)) as Hmsum.
  { clear -Hpos. induction Hpos as [|x l Hx Hl IH]; csimpl; [done|].
    unfold msum in *. cbn [foldr]. rewrite IH.
    assert (0 ≤ Zsum l) by (clear -Hl; induction Hl; simpl; lia).
    lia. }
  rewrite Hmsum in Hrel.
  assert (0 ≤ Zsum l) by (clear -Hpos; induction Hpos; simpl; lia).
  rewrite Hrel; [f_equal; lia| |lia].
  apply Forall2_fmap, Forall_Forall2_diag.
  eapply Forall_impl; [done|]. simpl. intros v Hv Hlt.
  unfold float64_of_int. rewrite float64_round_Z by lia. f_equal. lia.
Qed.

(** The floored float64 mean of non-negative integers whose sum stays below
    [2^53] lies between any bounds of the integers. *)
Lemma np_floor_mean_bounds l lo hi :
  l ≠ [] → Forall (λ v, lo ≤ v ≤ hi) l →
  0 ≤ lo → hi * Z.of_nat (length l) < 2 ^ 53 →
  ∃ q, np_floor (np_mean l) = Some q ∧ lo ≤ q ≤ hi.
Proof.
  intros Hne Hall Hlo Hhi.
  assert (lo * Z.of_nat (length l) ≤ Zsum l ≤ hi * Z.of_nat (length l)) as Hsum.
  { clear -Hall. induction Hall as [|x l Hx _ IH]; simpl; [lia|]. nia. }
  assert (0 < Z.of_nat (length l)) as Hlen by (destruct l; simpl; [done|lia]).
  set (n := Z.of_nat (length l)) in *.
  assert (np_mean l = Some (float64_round (inject_Z (Zsum l) / inject_Z n)))
    as ->.
  { unfold np_mean. destruct l as [|x l]; [done|].
    rewrite add_reduce_exact; [done| |lia].
    eapply Forall_impl; [done|]. simpl. lia. }
  eexists. split; [done|].
  assert (0 < inject_Z n)%Q as HnQ by (rewrite <- (Zlt_Qlt 0); lia).
  destruct (float64_round_between (inject_Z (Zsum l) / inject_Z n) 0 lo hi)
    as [Hl Hu]; [lia | lia | nia | ..].
  - apply Qle_shift_div_l; [done|].
    change (lo # Z.to_pos (2 ^ 0)) with (inject_Z lo).
    rewrite <- inject_Z_mult, <- Zle_Qle. lia.
  - apply Qle_shift_div_r; [done|].
    change (hi # Z.to_pos (2 ^ 0)) with (inject_Z hi).
    rewrite <- inject_Z_mult, <- Zle_Qle. lia.
  - change (_ # Z.to_pos (2 ^ 0)) with (inject_Z lo) in Hl.
    change (_ # Z.to_pos (2 ^ 0)) with (inject_Z hi) in Hu.
    apply Qfloor_resp_le in Hl, Hu. by rewrite Qfloor_Z in Hl, Hu.
Qed.

(** [int] of a non-negative float64, given as a fraction. *)
Lemma int_of_float_fraction (q : Q) (t : Z) (d : positive) :
  0 ≤ t → (q == t # d)%Q → int_of_float (Some q) = Ok (t ÷ Z.pos d).
Proof.
  intros Ht Hq. destruct q as [n d']. simpl. f_equal.
  assert (0 ≤ n).
  { unfold Qeq in Hq. simpl in Hq. nia. }
  rewrite !Z.quot_div_nonneg by lia.
  change (Qfloor (n # d') = Qfloor (t # d)). by apply Qfloor_comp.
Qed.

Lemma np_mean_is_Some l : l ≠ [] → is_Some (np_mean l).
Proof. destruct l; [done|]. by eexists. Qed.

(** [np.median] of a non-empty array is a number, not [nan]. *)
Lemma int_of_np_median_Ok l : l ≠ [] → ∃ z, int_of_float (np_median l) = Ok z.
Proof.
  intros Hne. unfold np_median.
  set (part := merge_sort Z.le l).
  assert (length part = length l) as Hlen
    by (unfold part; by rewrite merge_sort_Permutation).
  assert (0 < length l)%nat as Hpos by (destruct l; simpl; [done|lia]).
  assert (∀ n i, (0 < n)%nat → (i < length part)%nat →
            is_Some (np_mean (take n (drop i part)))) as Hsome.
  { intros n i Hn Hi. apply np_mean_is_Some.
    intros Hnil%(f_equal length). rewrite length_take, length_drop in Hnil.
    simpl in Hnil. lia. }
  rewrite Hlen in *.
  assert (length l / 2 < length l)%nat by (apply Nat.div_lt; lia).
  destruct (decide _).
  - destruct (Hsome 1%nat (length l / 2)%nat) as [q ->]; [lia..|]. by eexists.
  - destruct (Hsome 2%nat (length l / 2 - 1)%nat) as [q ->]; [lia..|].
    by eexists.
Qed.

(** The median that [calculate_school_stats] reports for a non-empty array
    of non-negative integers below [2^52], on which float64 arithmetic is
    exact: with [lo] and [hi] the lower and upper middle elements of the
    sorted array (the same element when the size is odd), the quotient of
    [lo + hi] by 2, truncated. *)
Lemma int_of_np_median l :
  l ≠ [] → Forall (λ v, 0 ≤ v < 2 ^ 52) l →
  ∃ lo hi,
    merge_sort Z.le l !! ((length l - 1) / 2)%nat = Some lo ∧
    merge_sort Z.le l !! (length l / 2)%nat = Some hi ∧
    int_of_float (np_median l) = Ok ((lo + hi) ÷ 2).
Proof.
  intros Hne Hall. unfold np_median.
  set (part := merge_sort Z.le l).
  assert (length part = length l) as Hlen
    by (unfold part; by rewrite merge_sort_Permutation).
  assert (Forall (λ v, 0 ≤ v < 2 ^ 52) part) as Hpart
    by (unfold part; by rewrite merge_sort_Permutation).
  rewrite Forall_lookup in Hpart.
  assert (0 < length l)%nat as Hpos by (destruct l; simpl; [done|lia]).
  rewrite Hlen.
  destruct (lookup_lt_is_Some_2 part (length l / 2)) as [hi Hhi].
  { rewrite Hlen. apply Nat.div_lt; lia. }
  destruct (lookup_lt_is_Some_2 part ((length l - 1) / 2)) as [lo Hlo].
  { rewrite Hlen. eapply Nat.le_lt_trans; [apply Nat.Div0.div_le_upper_bound|];
      [|apply Nat.lt_pred_l]; lia. }
  pose proof (Hpart _ _ Hhi). pose proof (Hpart _ _ Hlo).
  exists lo, hi. split_and!; [done..|].
  case_decide as Hodd.
  - (* odd size *)
    assert ((length l - 1) / 2 = length l / 2)%nat as Heq.
    { pose proof (Nat.div_mod_eq (length l) 2).
      pose proof (Nat.div_mod_eq (length l - 1) 2).
      pose proof (Nat.mod_upper_bound (length l - 1) 2). lia. }
    rewrite Heq in Hlo. simplify_eq.
    rewrite (drop_S _ _ _ Hhi). cbn [take]. unfold np_mean.
    rewrite add_reduce_exact by (repeat constructor; simpl; lia).
    cbn [Zsum foldr length]. rewrite Z.add_0_r.
    replace ((hi + hi) ÷ 2) with (hi ÷ 1)
      by (rewrite Z.quot_1_r; replace (hi + hi) with (hi * 2) by lia;
          by rewrite Z.quot_mul by lia).
    apply int_of_float_fraction; [lia|].
    assert (inject_Z hi / inject_Z (Z.of_nat 1) == hi # 1)%Q as Hq.
    { change (Z.of_nat 1) with 1. unfold Qdiv, Qmult, Qinv, Qeq. simpl. lia. }
    rewrite (float64_round_exact _ 0 hi), Qred_correct; [done|lia|lia|done].
  - (* even size *)
    assert (length l `mod` 2 = 0)%nat as Heven.
    { pose proof (Nat.mod_upper_bound (length l) 2). lia. }
    assert ((length l - 1) / 2 = length l / 2 - 1)%nat as Heq.
    { pose proof (Nat.div_mod_eq (length l) 2).
      pose proof (Nat.div_mod_eq (length l - 1) 2).
      pose proof (Nat.mod_upper_bound (length l - 1) 2). lia. }
    rewrite Heq in Hlo.
    assert (S (length l / 2 - 1) = length l / 2)%nat as HS.
    { pose proof (Nat.div_mod_eq (length l) 2). lia. }
    rewrite (drop_S _ _ _ Hlo), HS, (drop_S _ _ _ Hhi). cbn [take].
    unfold np_mean.
    rewrite add_reduce_exact by (repeat constructor; simpl; lia).
    cbn [Zsum foldr length]. rewrite Z.add_0_r.
    apply int_of_float_fraction; [lia|].
    assert (inject_Z (lo + hi) / inject_Z (Z.of_nat 2) == (lo + hi) # 2)%Q
      as Hq.
    { change (Z.of_nat 2) with 2. unfold Qdiv, Qmult, Qinv, Qeq. simpl. lia. }
    rewrite (float64_round_exact _ 1 (lo + hi)), Qred_correct;
      [done|lia|lia|done].
Qed.
End exact_sums.

(** ** The record of one school *)

Section school_stats_facts.
Implicit Types (self : SchoolStats) (ident : identifier) (m : matrix).

(** The slice of a school that a successful construction has filled: one
    row per year of the table, at least one, of three cells each. *)
Lemma built_slice junk data self ident p :
  create_enrollment_array junk (SchoolStats_init data) = (self, None) →
  get_school_index self ident = Ok p →
  ∃ a m name code,
    enrollment_array self = Some a ∧ a !! p = Some m ∧
    dict_keys (school_codes self) !! p = Some name ∧
    dict_getitem (school_codes self) name = Some code ∧
    m ≠ [] ∧ Forall (λ r : list Z, length r = 3%nat) m.
Proof.
  intros (a & Hself & Hshape & _)%create_enrollment_array_None Hidx.
  assert (school_codes self = school_codes (SchoolStats_init data)) as Hcodes
    by by rewrite Hself.
  assert (enrollment_array self = Some a) as Harr by by rewrite Hself.
  destruct (get_school_index_Ok _ _ _ Hidx) as (name & _ & Hp).
  destruct (dict_getitem_is_Some (school_codes self) name) as [code Hcode];
    [by eapply list_elem_of_lookup_2|].
  rewrite data_init in Hshape.
  assert (p < length a)%nat as [m Hm]%lookup_lt_is_Some.
  { apply lookup_lt_Some in Hp. rewrite Hcodes, school_codes_keys in Hp.
    assert (length (shape a) = length a) as <- by apply length_fmap.
    by rewrite Hshape, length_replicate. }
  exists a, m, name, code. split_and!; [done..| |].
  - (* the table has a row, hence a year *)
    pose proof (shape_lookup a p m Hm) as Hrow.
    rewrite Hshape in Hrow. apply lookup_replicate in Hrow as [Hrow _].
    intros ->. apply (f_equal length) in Hrow.
    rewrite length_replicate in Hrow. simpl in Hrow. symmetry in Hrow.
    apply length_zero_iff_nil, unique_nil_inv, fmap_nil_inv in Hrow.
    subst data. apply lookup_lt_Some in Hp. rewrite Hcodes in Hp.
    simpl in Hp. lia.
  - pose proof (shape_lookup a p m Hm) as Hrow.
    rewrite Hshape in Hrow. apply lookup_replicate in Hrow as [Hrow _].
    apply Forall_forall. intros r Hr.
    assert (length r ∈ length <$> m) as Hin by by apply list_elem_of_fmap_2.
    rewrite Hrow in Hin. by apply elem_of_replicate in Hin as [-> _].
Qed.

Lemma calculate_school_stats_slice self ident p a m name code :
  get_school_index self ident = Ok p →
  dict_keys (school_codes self) !! p = Some name →
  dict_getitem (school_codes self) name = Some code →
  enrollment_array self = Some a → a !! p = Some m →
  m ≠ [] → Forall (λ r : list Z, length r = 3%nat) m →
  ∃ r, calculate_school_stats self ident = Ok r ∧
    school_name r = name ∧
    yearly_totals r = np_sum <$> m ∧
    total_enrollment r = np_sum (mjoin m) ∧
    enrollments_over_500 r = filter (λ v, 500 < v) (mjoin m) ∧
    (filter (λ v, 500 < v) (mjoin m) = [] →
       median_over_500 r = inr no_enrollments) ∧
    (∀ z, filter (λ v, 500 < v) (mjoin m) ≠ [] →
       int_of_float (np_median (filter (λ v, 500 < v) (mjoin m))) = Ok z →
       median_over_500 r = inl z).
Proof.
  intros Hidx Hname Hcode Harr Hm Hne Hrows.
  assert (∀ c, (c < 3)%nat → ∃ col, column m c = Ok col) as Hcol.
  { intros c Hc. apply column_Ok. eapply Forall_impl; [done|].
    simpl. intros r ->. done. }
  destruct (Hcol 0%nat) as [g10 H10]; [lia|].
  destruct (Hcol 1%nat) as [g11 H11]; [lia|].
  destruct (Hcol 2%nat) as [g12 H12]; [lia|].
  assert (mjoin m ≠ []) as Hcells.
  { destruct m as [|[|x r] m]; [done| |done].
    by apply Forall_cons in Hrows as [? _]. }
  destruct (np_max_Ok _ Hcells) as [hi Hhi].
  destruct (np_min_Ok _ Hcells) as [lo Hlo].
  unfold calculate_school_stats, school_slice.
  rewrite Hidx. csimpl. rewrite Hname. csimpl. rewrite Hcode. csimpl.
  rewrite Harr, Hm. csimpl. rewrite H10. csimpl. rewrite H11. csimpl.
  rewrite H12. csimpl. rewrite Hhi. csimpl. rewrite Hlo. csimpl.
  destruct (filter (λ v, 500 < v) (mjoin m)) as [|x over] eqn:Hover.
  - rewrite decide_False by (simpl; lia). csimpl.
    eexists. split; [done|]. by split_and!.
  - rewrite decide_True by (simpl; lia).
    destruct (int_of_np_median_Ok (x :: over)) as [z0 Hz]; [done|].
    rewrite Hz. csimpl. eexists. split; [done|]. split_and!; [done..|].
    intros z _ [= <-]. done.
Qed.
End school_stats_facts.

Lemma filter_nil_Forall {A} (P : A → Prop) `{∀ x, Decision (P x)} (l : list A) :
  Forall (λ x, ¬ P x) l → filter P l = [].
Proof.
  induction 1 as [|x l Hx _ IH]; [done|]. by rewrite filter_cons_False.
Qed.

Lemma filter_Exists_ne {A} (P : A → Prop) `{∀ x, Decision (P x)} (l : list A) :
  Exists P l → filter P l ≠ [].
Proof.
  intros (x & Hin & Hx)%Exists_exists Hnil.
  by apply (filter_nil_not_elem_of P l x).
Qed.

(** The cells above 500 of a slice whose cells are below [2^52] are in the
    range in which the float64 median is exact. *)
Lemma small_over_500 (l : list Z) :
  Forall (λ v, v < 2 ^ 52) l →
  Forall (λ v, 0 ≤ v < 2 ^ 52) (filter (λ v, 500 < v) l).
Proof.
  rewrite !Forall_forall. intros Hall v [Hv Hin]%list_elem_of_filter.
  specialize (Hall v Hin). lia.
Qed.

(** ** Claims about the record of one school *)

(** C2. After a successful construction, every position [p] below the
    number of schools is the position of some identifier, and for every
    identifier that resolves to [p] the statistics are returned with
    [total_enrollment] equal to the sum of all the cells of the slice at
    [p], over all years and grades, in [int64] arithmetic; when that sum
    fits [int64] it is the sum itself. *)
Theorem total_enrollment_is_slice_sum junk data self p :
  create_enrollment_array junk (SchoolStats_init data) = (self, None) →
  (p < length (unique (School_Name <$> data)))%nat →
  ∃ a m,
    enrollment_array self = Some a ∧ a !! p = Some m ∧
    (∃ ident, get_school_index self ident = Ok p) ∧
    ∀ ident, get_school_index self ident = Ok p →
      ∃ r, calculate_school_stats self ident = Ok r ∧
           total_enrollment r = wrap64 (Zsum (Zsum <$> m)) ∧
           (in_int64 (Zsum (Zsum <$> m)) →
              total_enrollment r = Zsum (Zsum <$> m)).
Proof.
  intros Hcreate [name Hname]%lookup_lt_is_Some.
  pose proof Hcreate as (a0 & Hself & _)%create_enrollment_array_None.
  assert (school_codes self = school_codes (SchoolStats_init data)) as Hcodes
    by by rewrite Hself.
  assert (get_school_index self (IdStr name) = Ok p) as Hidx0.
  { apply (get_school_index_resolved _ _ name); [|done|].
    - rewrite Hcodes. apply school_codes_NoDup.
    - by rewrite Hcodes, school_codes_keys. }
  destruct (built_slice _ _ _ _ _ Hcreate Hidx0)
    as (a & m & ? & ? & Harr & Hm & _).
  exists a, m. split_and!; [done | done | by eexists |].
  intros ident Hidx.
  destruct (built_slice _ _ _ _ _ Hcreate Hidx)
    as (a' & m' & name' & code & Harr' & Hm' & Hkey & Hcode & Hne & Hrows).
  simplify_eq.
  destruct (calculate_school_stats_slice _ _ _ _ _ _ _
              Hidx Hkey Hcode Harr Hm Hne Hrows) as (r & Hr & _ & _ & Ht & _).
  exists r. rewrite Ht, np_sum_wrap64, Zsum_mjoin.
  split_and!; [done..|]. apply wrap64_in_range.
Qed.

Lemma total_enrollment_is_slice_sum_witness :
  ∃ a m,
    enrollment_array (create_enrollment_array (λ _ _ _, 77)
                        (SchoolStats_init lincoln)).1 = Some a ∧
    a !! 0%nat = Some m ∧
    (∃ ident, get_school_index (create_enrollment_array (λ _ _ _, 77)
                                  (SchoolStats_init lincoln)).1 ident = Ok 0%nat) ∧
    ∀ ident, get_school_index (create_enrollment_array (λ _ _ _, 77)
                                 (SchoolStats_init lincoln)).1 ident = Ok 0%nat →
      ∃ r, calculate_school_stats (create_enrollment_array (λ _ _ _, 77)
                                     (SchoolStats_init lincoln)).1 ident = Ok r ∧
           total_enrollment r = wrap64 (Zsum (Zsum <$> m)) ∧
           (in_int64 (Zsum (Zsum <$> m)) →
              total_enrollment r = Zsum (Zsum <$> m)).
Proof.
  apply (total_enrollment_is_slice_sum (λ _ _ _, 77) lincoln _ 0);
    [reflexivity | simpl; lia].
Defined.

(** C5, as stated, fails: [np.median] returns a float64, and a cell above
    [2^53] need not be one. On a slice whose only cell above 500 is the
    largest [int64], [2^63 - 1], the median of the cells above 500 is that
    cell, and [median_over_500] is [2^63], which is no cell of the slice. *)
Lemma median_of_large_cell_is_rounded :
  outcome (create_enrollment_array (λ _ _ _, 0) (SchoolStats_init large_cell))
    = Ok {| data := large_cell;
            enrollment_array := Some [[[2 ^ 63 - 1; 0; 0]]];
            school_codes := [("Park", 5)] |}
  ∧ enrollments_over_500 <$>
      calculate_school_stats
        {| data := large_cell;
           enrollment_array := Some [[[2 ^ 63 - 1; 0; 0]]];
           school_codes := [("Park", 5)] |} (IdStr "Park")
    = Ok [2 ^ 63 - 1]
  ∧ median_over_500 <$>
      calculate_school_stats
        {| data := large_cell;
           enrollment_array := Some [[[2 ^ 63 - 1; 0; 0]]];
           school_codes := [("Park", 5)] |} (IdStr "Park")
    = Ok (inl (2 ^ 63))
  ∧ ¬ ∃ srt lo hi,
        Sorted Z.le srt ∧ srt ≡ₚ [2 ^ 63 - 1] ∧
        srt !! ((length srt - 1) / 2)%nat = Some lo ∧
        srt !! (length srt / 2)%nat = Some hi ∧
        2 ^ 63 = (lo + hi) ÷ 2.
Proof.
  split_and!; [reflexivity..|].
  intros (srt & lo & hi & _ & ->%Permutation_singleton_r & Hlo & Hhi & Hmed).
  by simplify_eq/=.
Qed.

(** C5. After a successful construction, for every identifier that
    resolves to a position [p] the statistics are returned, and: if no cell
    of the slice at [p] is above 500, [median_over_500] is the string "No
    enrollments over 500", not a number; if some cell is, it is a number,
    and when every cell of the slice is below [2^52], so that the float64
    arithmetic of [np.median] is exact, it is the integer median of the
    cells above 500 -- with [lo] and [hi] the lower and upper middle elements
    of these cells in sorted order (one and the same element when their
    number is odd), the quotient of [lo + hi] by 2. *)
Theorem median_over_500_marker_or_median junk data self ident p :
  create_enrollment_array junk (SchoolStats_init data) = (self, None) →
  get_school_index self ident = Ok p →
  ∃ a m r,
    enrollment_array self = Some a ∧ a !! p = Some m ∧
    calculate_school_stats self ident = Ok r ∧
    (Forall (λ v, ¬ 500 < v) (mjoin m) →
       median_over_500 r = inr no_enrollments) ∧
    (Exists (λ v, 500 < v) (mjoin m) →
       (∃ z, median_over_500 r = inl z) ∧
       (Forall (λ v, v < 2 ^ 52) (mjoin m) →
        ∃ srt lo hi,
          Sorted Z.le srt ∧ srt ≡ₚ filter (λ v, 500 < v) (mjoin m) ∧
          srt !! ((length srt - 1) / 2)%nat = Some lo ∧
          srt !! (length srt / 2)%nat = Some hi ∧
          median_over_500 r = inl ((lo + hi) ÷ 2))).
Proof.
  intros Hcreate Hidx.
  destruct (built_slice _ _ _ _ _ Hcreate Hidx)
    as (a & m & name & code & Harr & Hm & Hkey & Hcode & Hne & Hrows).
  destruct (calculate_school_stats_slice _ _ _ _ _ _ _
              Hidx Hkey Hcode Harr Hm Hne Hrows)
    as (r & Hr & _ & _ & _ & _ & Hnone & Hsome).
  exists a, m, r. split_and!; [done..| |].
  - intros Hall. by apply Hnone, filter_nil_Forall.
  - intros Hex%(filter_Exists_ne (λ v, 500 < v)). split.
    + destruct (int_of_np_median_Ok _ Hex) as [z Hz]. exists z.
      by apply Hsome.
    + intros Hsmall.
      destruct (int_of_np_median (filter (λ v, 500 < v) (mjoin m)) Hex)
        as (lo & hi & Hlo & Hhi & Hz).
      { by apply small_over_500. }
      exists (merge_sort Z.le (filter (λ v, 500 < v) (mjoin m))), lo, hi.
      rewrite (Permutation_length (merge_sort_Permutation Z.le _)).
      split_and!; [by apply (Sorted_merge_sort Z.le)
                  | apply merge_sort_Permutation | done | done
                  | by apply Hsome].
Qed.

Lemma median_over_500_marker_or_median_witness :
  ∃ a m r,
    enrollment_array (create_enrollment_array (λ _ _ _, 77)
                        (SchoolStats_init lincoln)).1 = Some a ∧
    a !! 0%nat = Some m ∧
    calculate_school_stats (create_enrollment_array (λ _ _ _, 77)
                              (SchoolStats_init lincoln)).1 (IdInt 100) = Ok r ∧
    (Forall (λ v, ¬ 500 < v) (mjoin m) →
       median_over_500 r = inr no_enrollments) ∧
    (Exists (λ v, 500 < v) (mjoin m) →
       (∃ z, median_over_500 r = inl z) ∧
       (Forall (λ v, v < 2 ^ 52) (mjoin m) →
        ∃ srt lo hi,
          Sorted Z.le srt ∧ srt ≡ₚ filter (λ v, 500 < v) (mjoin m) ∧
          srt !! ((length srt - 1) / 2)%nat = Some lo ∧
          srt !! (length srt / 2)%nat = Some hi ∧
          median_over_500 r = inl ((lo + hi) ÷ 2))).
Proof.
  apply (median_over_500_marker_or_median (λ _ _ _, 77) lincoln _ (IdInt 100) 0);
    reflexivity.
Defined.

(** C10, as stated, fails: the average of the two middle values is computed
    in float64. On a slice whose cells above 500 are [2^53 + 3] twice, the
    average of the two middle values is [2^53 + 3], and [median_over_500]
    is [2^53 + 4], above both of them. *)
Lemma median_of_large_pair_rounds_up :
  outcome (create_enrollment_array (λ _ _ _, 0) (SchoolStats_init large_pair))
    = Ok {| data := large_pair;
            enrollment_array := Some [[[2 ^ 53 + 3; 2 ^ 53 + 3; 0]]];
            school_codes := [("Park", 5)] |}
  ∧ enrollments_over_500 <$>
      calculate_school_stats
        {| data := large_pair;
           enrollment_array := Some [[[2 ^ 53 + 3; 2 ^ 53 + 3; 0]]];
           school_codes := [("Park", 5)] |} (IdStr "Park")
    = Ok [2 ^ 53 + 3; 2 ^ 53 + 3]
  ∧ median_over_500 <$>
      calculate_school_stats
        {| data := large_pair;
           enrollment_array := Some [[[2 ^ 53 + 3; 2 ^ 53 + 3; 0]]];
           school_codes := [("Park", 5)] |} (IdStr "Park")
    = Ok (inl (2 ^ 53 + 4))
  ∧ ¬ ∃ srt lo hi,
        Sorted Z.le srt ∧ srt ≡ₚ [2 ^ 53 + 3; 2 ^ 53 + 3] ∧
        srt !! 0%nat = Some lo ∧ srt !! 1%nat = Some hi ∧
        2 ^ 53 + 4 = (lo + hi) ÷ 2.
Proof.
  split_and!; [reflexivity..|].
  intros (srt & lo & hi & _ & Hperm & Hlo & Hhi & Hmed).
  assert (Forall (λ v, v = 2 ^ 53 + 3) srt) as Hall.
  { rewrite Hperm. by repeat constructor. }
  rewrite Forall_lookup in Hall.
  rewrite (Hall _ _ Hlo), (Hall _ _ Hhi) in Hmed. done.
Qed.

(** C10. When the cells above 500 of the slice are of even, non-zero
    number [2 * (h + 1)] and every cell of the slice is below [2^52], so
    that the float64 arithmetic of [np.median] is exact, the reported median
    is the average of the two middle values [lo] and [hi] of these cells in
    sorted order, truncated: the quotient of [lo + hi] by 2, which never
    rounds up (for 501 and 502 it is 501). *)
Theorem median_of_even_subset_truncates junk data self ident p h :
  create_enrollment_array junk (SchoolStats_init data) = (self, None) →
  get_school_index self ident = Ok p →
  ∃ a m r,
    enrollment_array self = Some a ∧ a !! p = Some m ∧
    calculate_school_stats self ident = Ok r ∧
    (length (filter (λ v, 500 < v) (mjoin m)) = (2 * S h)%nat →
     Forall (λ v, v < 2 ^ 52) (mjoin m) →
       ∃ srt lo hi,
         Sorted Z.le srt ∧ srt ≡ₚ filter (λ v, 500 < v) (mjoin m) ∧
         srt !! h = Some lo ∧ srt !! S h = Some hi ∧
         median_over_500 r = inl ((lo + hi) ÷ 2) ∧
         2 * ((lo + hi) ÷ 2) ≤ lo + hi < 2 * ((lo + hi) ÷ 2) + 2).
Proof.
  intros Hcreate Hidx.
  destruct (built_slice _ _ _ _ _ Hcreate Hidx)
    as (a & m & name & code & Harr & Hm & Hkey & Hcode & Hne & Hrows).
  destruct (calculate_school_stats_slice _ _ _ _ _ _ _
              Hidx Hkey Hcode Harr Hm Hne Hrows)
    as (r & Hr & _ & _ & _ & _ & _ & Hsome).
  exists a, m, r. split_and!; [done..|].
  intros Hlen Hsmall%small_over_500.
  set (over := filter (λ v, 500 < v) (mjoin m)) in *.
  assert (over ≠ []) as Hover by (intros Hnil; by rewrite Hnil in Hlen).
  destruct (int_of_np_median _ Hover Hsmall) as (lo & hi & Hlo & Hhi & Hz).
  rewrite Hlen in Hlo, Hhi.
  replace ((2 * S h - 1) / 2)%nat with h in Hlo
    by (apply (Nat.div_unique _ 2 h 1); lia).
  replace (2 * S h / 2)%nat with (S h) in Hhi
    by (apply (Nat.div_unique _ 2 (S h) 0); lia).
  assert (Hgt : ∀ i v, merge_sort Z.le over !! i = Some v → 500 < v).
  { intros i v Hv%list_elem_of_lookup_2.
    rewrite merge_sort_Permutation in Hv.
    by apply list_elem_of_filter in Hv as [? _]. }
  pose proof (Hgt _ _ Hlo). pose proof (Hgt _ _ Hhi).
  exists (merge_sort Z.le over), lo, hi.
  split_and!; [by apply (Sorted_merge_sort Z.le) | apply merge_sort_Permutation
              | done | done | by apply Hsome | |].
  - rewrite Z.quot_div_nonneg by lia. pose proof (Z.mod_pos_bound (lo + hi) 2).
    pose proof (Z.div_mod (lo + hi) 2). lia.
  - rewrite Z.quot_div_nonneg by lia. pose proof (Z.mod_pos_bound (lo + hi) 2).
    pose proof (Z.div_mod (lo + hi) 2). lia.
Qed.

Lemma median_of_even_subset_truncates_witness :
  (∃ a m r,
    enrollment_array (create_enrollment_array (λ _ _ _, 77)
                        (SchoolStats_init two_over)).1 = Some a ∧
    a !! 0%nat = Some m ∧
    calculate_school_stats (create_enrollment_array (λ _ _ _, 77)
                              (SchoolStats_init two_over)).1 (IdInt 5) = Ok r ∧
    (length (filter (λ v, 500 < v) (mjoin m)) = (2 * 1)%nat →
     Forall (λ v, v < 2 ^ 52) (mjoin m) →
       ∃ srt lo hi,
         Sorted Z.le srt ∧ srt ≡ₚ filter (λ v, 500 < v) (mjoin m) ∧
         srt !! 0%nat = Some lo ∧ srt !! 1%nat = Some hi ∧
         median_over_500 r = inl ((lo + hi) ÷ 2) ∧
         2 * ((lo + hi) ÷ 2) ≤ lo + hi < 2 * ((lo + hi) ÷ 2) + 2))
  ∧ median_over_500 <$>
      calculate_school_stats (create_enrollment_array (λ _ _ _, 77)
                                (SchoolStats_init two_over)).1 (IdInt 5)
    = Ok (inl 501).
Proof.
  split; [|reflexivity].
  apply (median_of_even_subset_truncates (λ _ _ _, 77) two_over _ (IdInt 5) 0 0);
    reflexivity.
Defined.

(** C6, as stated, fails: the code has no error of its own for an empty
    table. On the empty table the construction leaves an array with zero
    schools, and the statistics of any identifier then fail in
    [get_school_index] with the [ValueError] that an unknown school gets on
    any other table. *)
Lemma empty_table_raises_invalid_school :
  (∀ junk, outcome (create_enrollment_array junk (SchoolStats_init [])) =
     Ok {| data := []; enrollment_array := Some []; school_codes := [] |})
  ∧ calculate_school_stats
      {| data := []; enrollment_array := Some []; school_codes := [] |}
      (IdStr "Lincoln") = Raise invalid_school
  ∧ get_school_index (SchoolStats_init lincoln) (IdStr "Lincol") =
      Raise invalid_school.
Proof. done. Qed.

(** C6, amended. After a successful construction the array has zero
    schools or zero years exactly when the table has no row; the statistics
    of any identifier then fail with the [ValueError] of an unknown school,
    raised by [get_school_index] before any mean is taken; and on any table
    the statistics fail only in that way: whenever they raise, the exception
    is that [ValueError] and it is [get_school_index] that raised it. *)
Theorem school_stats_fail_only_in_resolution junk data self ident :
  create_enrollment_array junk (SchoolStats_init data) = (self, None) →
  ∃ a, enrollment_array self = Some a ∧
    ((a = [] ∨ [] ∈ a) ↔ data = []) ∧
    (data = [] → calculate_school_stats self ident = Raise invalid_school) ∧
    (∀ e, calculate_school_stats self ident = Raise e →
       e = invalid_school ∧ get_school_index self ident = Raise invalid_school).
Proof.
  intros Hcreate.
  pose proof Hcreate as (a & Hself & Hshape & _)%create_enrollment_array_None.
  rewrite data_init in Hshape.
  assert (school_codes self = school_codes (SchoolStats_init data)) as Hcodes
    by by rewrite Hself.
  assert (enrollment_array self = Some a) as Harr by by rewrite Hself.
  assert (length a = length (unique (School_Name <$> data))) as Hlen.
  { assert (length (shape a) = length a) as <- by apply length_fmap.
    by rewrite Hshape, length_replicate. }
  exists a. split_and!; [done| | |].
  - split.
    + intros [->|[p Hp]%list_elem_of_lookup].
      * symmetry in Hlen. by apply length_zero_iff_nil, unique_nil_inv,
          fmap_nil_inv in Hlen.
      * apply shape_lookup in Hp. rewrite Hshape in Hp.
        apply lookup_replicate in Hp as [Hp _]. apply (f_equal length) in Hp.
        rewrite length_replicate in Hp. simpl in Hp. symmetry in Hp.
        by apply length_zero_iff_nil, unique_nil_inv, fmap_nil_inv in Hp.
    + intros ->. left. by apply length_zero_iff_nil.
  - intros ->. unfold calculate_school_stats.
    assert (get_school_index self ident = Raise invalid_school) as ->; [|done].
    unfold get_school_index, resolved_name. rewrite Hcodes. by destruct ident.
  - intros e He.
    destruct (get_school_index self ident) as [p|e'] eqn:Hidx.
    + destruct (built_slice _ _ _ _ _ Hcreate Hidx)
        as (a' & m & name & code & Harr' & Hm & Hkey & Hcode & Hne & Hrows).
      destruct (calculate_school_stats_slice _ _ _ _ _ _ _
                  Hidx Hkey Hcode Harr' Hm Hne Hrows) as (r & Hr & _).
      congruence.
    + assert (e' = invalid_school) as ->.
      { eapply get_school_index_Raise; [|done].
        rewrite Hcodes. apply school_codes_NoDup. }
      unfold calculate_school_stats in He. rewrite Hidx in He.
      by injection He as <-.
Qed.

Lemma school_stats_fail_only_in_resolution_witness :
  ∃ a, enrollment_array (create_enrollment_array (λ _ _ _, 77)
                           (SchoolStats_init [])).1 = Some a ∧
    ((a = [] ∨ [] ∈ a) ↔ @nil Row = []) ∧
    (@nil Row = [] →
       calculate_school_stats (create_enrollment_array (λ _ _ _, 77)
                                 (SchoolStats_init [])).1 (IdStr "Lincoln") =
       Raise invalid_school) ∧
    (∀ e, calculate_school_stats (create_enrollment_array (λ _ _ _, 77)
                                    (SchoolStats_init [])).1 (IdStr "Lincoln") =
          Raise e →
       e = invalid_school ∧
       get_school_index (create_enrollment_array (λ _ _ _, 77)
                           (SchoolStats_init [])).1 (IdStr "Lincoln") =
       Raise invalid_school).
Proof.
  apply (school_stats_fail_only_in_resolution (λ _ _ _, 77) [] _ (IdStr "Lincoln")).
  reflexivity.
Defined.

(** ** Claims about the general statistics *)



(** * Further properties *)

(** ** The dictionary: which code a school keeps *)

Section last_code_facts.
Implicit Types (data rows : DataFrame) (d : dict string Z).

Lemma dict_getitem_setitem {V} (d' : dict string V) k v k' :
  dict_getitem (dict_setitem d' k v) k' =
    if decide (k = k') then Some v else dict_getitem d' k'.
Proof.
  induction d' as [|[k1 v1] d' IH]; csimpl.
  - by repeat case_decide.
  - destruct (decide (k1 = k)) as [->|Hne]; csimpl.
    + by repeat case_decide.
    + rewrite IH. repeat case_decide; congruence.
Qed.

Lemma foldl_codes_step_getitem rows d name :
  dict_getitem (foldl codes_step d rows) name =
    match last (filter (λ r, School_Name r = name) rows) with
    | Some r => Some (School_Code r)
    | None => dict_getitem d name
    end.
Proof.
  revert d. induction rows as [|r rows IH]; intros d; csimpl; [done|].
  rewrite IH. unfold codes_step. rewrite dict_getitem_setitem, filter_cons.
  destruct (decide (School_Name r = name)) as [Heq|Hne]; [|done].
  rewrite last_cons. by destruct (last _).
Qed.

Lemma school_codes_getitem data name :
  dict_getitem (school_codes (SchoolStats_init data)) name = last_code data name.
Proof.
  unfold last_code. simpl. rewrite foldl_codes_step_getitem.
  by destruct (last _).
Qed.

Lemma last_code_is_Some data name :
  is_Some (last_code data name) ↔ name ∈ School_Name <$> data.
Proof.
  unfold last_code. rewrite fmap_is_Some, last_is_Some. split.
  - intros Hne. destruct (filter _ data) as [|r l] eqn:Hf; [done|].
    assert (r ∈ filter (λ r, School_Name r = name) data) as Hr
      by (rewrite Hf; left).
    apply list_elem_of_filter in Hr as [<- ?]. by apply list_elem_of_fmap_2.
  - intros (r & -> & Hr)%list_elem_of_fmap Hnil.
    by apply (filter_nil_not_elem_of _ _ r) in Hnil.
Qed.
End last_code_facts.

(** X1. For every name, the dictionary of [__init__] maps it to the code of
    the last row of the table that carries the name -- when a school has
    rows with different codes the last one wins -- and has no entry for a
    name that no row carries. *)
Theorem school_codes_last_code_wins data name :
  dict_getitem (school_codes (SchoolStats_init data)) name = last_code data name
  ∧ (name ∈ dict_keys (school_codes (SchoolStats_init data)) ↔
     name ∈ School_Name <$> data)
  ∧ (name ∉ School_Name <$> data →
     dict_getitem (school_codes (SchoolStats_init data)) name = None).
Proof.
  split_and!.
  - apply school_codes_getitem.
  - by rewrite school_codes_keys, elem_of_unique.
  - intros Hnot. rewrite school_codes_getitem.
    destruct (last_code data name) eqn:Hl; [|done].
    destruct Hnot. apply last_code_is_Some. by eexists.
Qed.

(** ** Resolution: which identifiers are accepted *)

Section acceptance_facts.
Implicit Types (self : SchoolStats) (ident : identifier).

Lemma list_index_elem_of {A} `{EqDecision A} (x : A) (l : list A) :
  x ∈ l → ∃ i, list_index x l = Ok i.
Proof.
  intros Hin. unfold list_index.
  destruct (list_find_elem_of (λ y, y = x) l x Hin eq_refl) as [[i y] ->].
  by exists i.
Qed.

Lemma head_filter_list_find {A} (P : A → Prop) `{∀ x, Decision (P x)}
    (l : list A) :
  head (filter P l) = snd <$> list_find P l.
Proof.
  induction l as [|x l IH]; csimpl; [done|].
  rewrite filter_cons. case_decide; [done|].
  rewrite IH. by destruct (list_find P l) as [[??]|].
Qed.

(** The items of a dictionary with distinct keys, by position. *)
Lemma dict_lookup_item {V} (d : dict string V) i k v :
  NoDup (dict_keys d) →
  d !! i = Some (k, v) ↔ dict_keys d !! i = Some k ∧ dict_getitem d k = Some v.
Proof.
  intros Hnd. split.
  - intros Hi. split.
    + unfold dict_keys. apply list_lookup_fmap_Some. by exists (k, v).
    + apply dict_getitem_Some; [done|]. by eapply list_elem_of_lookup_2.
  - intros [Hk Hv]. apply dict_getitem_Some in Hv; [|done].
    apply list_elem_of_lookup in Hv as [i' Hi'].
    assert (dict_keys d !! i' = Some k) as Hk'
      by (unfold dict_keys; apply list_lookup_fmap_Some; by exists (k, v)).
    by rewrite (NoDup_lookup _ _ _ _ Hnd Hk Hk').
Qed.

Lemma resolved_name_code_Some self code name :
  NoDup (dict_keys (school_codes self)) →
  resolved_name self (IdInt code) = Some name ↔
  ∃ p, dict_keys (school_codes self) !! p = Some name ∧
       dict_getitem (school_codes self) name = Some code ∧
       ∀ q name', (q < p)%nat →
         dict_keys (school_codes self) !! q = Some name' →
         dict_getitem (school_codes self) name' ≠ Some code.
Proof.
  intros Hnd. unfold resolved_name.
  rewrite (head_filter_list_find (λ nc : string * Z, nc.2 = code)). split.
  - destruct (list_find _ _) as [[p [n c]]|] eqn:Hf; [|done].
    intros [= <-]. apply list_find_Some in Hf as (Hp & Hc & Hbefore).
    simpl in Hc. subst c. apply dict_lookup_item in Hp as [Hk Hv]; [|done].
    exists p. split_and!; [done..|].
    intros q name' Hq Hk' Hv'.
    apply (Hbefore q (name', code)); [|done..].
    by apply dict_lookup_item.
  - intros (p & Hk & Hv & Hbefore).
    assert (list_find (λ nc : string * Z, nc.2 = code) (school_codes self)
            = Some (p, (name, code))) as ->; [|done].
    apply list_find_Some. split_and!; [by apply dict_lookup_item | done |].
    intros q [name' c'] Hq Hlt Hc. simpl in Hc. subst c'.
    apply dict_lookup_item in Hq as [Hk' Hv']; [|done].
    by apply (Hbefore q name').
Qed.
End acceptance_facts.

(** X2. A name is accepted exactly when some row of the table carries it,
    and the position returned is its rank among the distinct names in order
    of first appearance: [get_school_index] returns [p] for the name iff the
    [p]-th distinct name is that name. *)
Theorem get_school_index_by_name data name p :
  get_school_index (SchoolStats_init data) (IdStr name) = Ok p ↔
  unique (School_Name <$> data) !! p = Some name.
Proof.
  rewrite <- school_codes_keys. split.
  - intros (name' & Hres & Hp)%get_school_index_Ok. simpl in Hres.
    by simplify_eq.
  - intros Hp. apply (get_school_index_resolved _ _ name); [|done..].
    apply school_codes_NoDup.
Qed.

(** X3. A code is accepted exactly when it is the last code of some school,
    and it resolves to the first such school: [get_school_index] returns [p]
    for the code iff the [p]-th distinct name is a school whose last row
    carries the code and no school before it is. A code that only earlier
    rows of a school carry is not accepted. *)
Theorem get_school_index_by_code data code p :
  get_school_index (SchoolStats_init data) (IdInt code) = Ok p ↔
  ∃ name,
    unique (School_Name <$> data) !! p = Some name ∧
    last_code data name = Some code ∧
    ∀ q name', (q < p)%nat →
      unique (School_Name <$> data) !! q = Some name' →
      last_code data name' ≠ Some code.
Proof.
  pose proof (school_codes_NoDup data) as Hnd.
  rewrite <- school_codes_keys. split.
  - intros (name & Hres & Hp)%get_school_index_Ok.
    apply resolved_name_code_Some in Hres as (p' & Hp' & Hv & Hbefore); [|done].
    rewrite (NoDup_lookup _ _ _ _ Hnd Hp Hp') in *.
    exists name. rewrite <- school_codes_getitem. split_and!; [done..|].
    intros q name' Hq Hk. rewrite <- school_codes_getitem. by eapply Hbefore.
  - intros (name & Hp & Hv & Hbefore).
    apply (get_school_index_resolved _ _ name); [done| |done].
    apply resolved_name_code_Some; [done|]. exists p.
    rewrite school_codes_getitem. split_and!; [done..|].
    intros q name' Hq Hk. rewrite school_codes_getitem. by eapply Hbefore.
Qed.

Lemma get_school_index_Raise_any self ident e :
  get_school_index self ident = Raise e → e = invalid_school.
Proof.
  unfold get_school_index.
  destruct (resolved_name self ident) as [name|]; [|by intros [= <-]].
  unfold dict_contains. case_bool_decide as Hin; [|by intros [= <-]].
  destruct (list_index_elem_of _ _ Hin) as [i ->]. done.
Qed.

(** X4. Whatever the object holds, [get_school_index] raises nothing but the
    [ValueError] "You must enter a valid school name or code.": the call of
    [list.index] that follows the membership test never fails. *)
Theorem get_school_index_only_invalid_school self ident e :
  get_school_index self ident = Raise e → e = invalid_school.
Proof. apply get_school_index_Raise_any. Qed.

Lemma get_school_index_only_invalid_school_witness :
  ValueError "You must enter a valid school name or code." = invalid_school.
Proof.
  apply (get_school_index_only_invalid_school (SchoolStats_init lincoln)
           (IdInt 7)).
  reflexivity.
Defined.

(** ** The construction: when it returns and what it raises *)

Section construction_facts.
Implicit Types (data : DataFrame) (self : SchoolStats) (a : cube).

Lemma isna_any_true data s y g :
  isna_any (select data s y g) = true ↔
  ∃ r, r ∈ matching_rows data s y ∧ grade_column g r = None.
Proof.
  unfold isna_any, select. rewrite bool_decide_eq_true, Exists_exists. split.
  - intros (v & (r & -> & Hr)%list_elem_of_fmap & Hv). by exists r.
  - intros (r & Hr & Hnone). exists None. split; [|done].
    apply list_elem_of_fmap. by exists r.
Qed.

Lemma cell_value_Ok_inv data s y g v :
  cell_value data s y g = Ok v →
  (v = 0 ∧ ∃ r, r ∈ matching_rows data s y ∧ grade_column g r = None) ∨
  (∃ r, matching_rows data s y = [r] ∧ grade_column g r = Some v).
Proof.
  unfold cell_value. destruct (isna_any _) eqn:Hna.
  - intros [= <-]. left. split; [done|]. by apply isna_any_true.
  - unfold select. destruct (matching_rows data s y) as [|r [|r' rows]]; csimpl;
      [done| |by destruct (grade_column g r)].
    destruct (grade_column g r) as [v'|] eqn:Hg; [|done].
    intros [= <-]. right. by exists r.
Qed.

Lemma cell_value_Raise_inv data s y g e :
  cell_value data s y g = Raise e →
  e = series_error ∧ length (matching_rows data s y) ≠ 1%nat ∧
  Forall (λ r, grade_column g r ≠ None) (matching_rows data s y).
Proof.
  unfold cell_value. destruct (isna_any _) eqn:Hna; [done|].
  assert (Forall (λ r, grade_column g r ≠ None) (matching_rows data s y))
    as Hall.
  { apply Forall_forall. intros r Hr Hnone.
    assert (isna_any (select data s y g) = true) as Htrue
      by (apply isna_any_true; by exists r).
    congruence. }
  unfold select. destruct (matching_rows data s y) as [|r [|r' rows]]; csimpl.
  - by intros [= <-].
  - apply Forall_cons in Hall as [Hr _].
    by destruct (grade_column g r).
  - destruct (grade_column g r); by intros [= <-].
Qed.

Lemma cell_computable_value data s y g :
  cell_computable data s y g ↔
  ∃ v, cell_value data s y g = Ok v ∧ in_int64 v.
Proof.
  split.
  - intros [(r & Hr & Hnone)|(r & v & Hm & Hg & Hv)].
    + exists 0. split; [by eapply cell_value_missing|].
      unfold in_int64, int64_min, int64_max. lia.
    + exists v. split; [|done]. rewrite (cell_value_one_row _ _ _ _ r Hm).
      by rewrite Hg.
  - intros (v & [[-> Hr]|(r & Hm & Hg)]%cell_value_Ok_inv & Hv).
    + by left.
    + right. by exists r, v.
Qed.

Lemma iterations_in_range schools years a t :
  shape a = replicate (length schools)
              (replicate (length years) (length grades)) →
  t ∈ iterations schools years →
  is_Some (getitem a (pos_i t) (pos_j t) (pos_k t)).
Proof.
  intros Hshape (Hs & Hy & Hg)%elem_of_iterations.
  apply (shape_in_range _ _ _ _ _ _ _ Hshape).
  split_and!; by eapply lookup_lt_Some.
Qed.

(** In a loop nest whose indices stay within the array, the exception that
    stops the loops is the one of the first cell that cannot be computed. *)
Lemma cells_exn_kind data L a e :
  Forall (λ t, is_Some (getitem a (pos_i t) (pos_j t) (pos_k t))) L →
  (for_loop (cell_body data) L a).2 = Some e →
  e = series_error ∨ e = overflow_error.
Proof.
  revert a. induction L as [|t L IH]; intros a; simpl; [done|].
  intros [Ht HL]%Forall_cons.
  pose proof (cell_body_shape data t a) as Hshape.
  destruct (cell_body data t a) as [a1 [e1|]] eqn:Hbody; simpl in *.
  - intros [= <-]. rewrite cell_body_unfold in Hbody.
    destruct (value_at data t) as [v|e'] eqn:Hv; csimpl in Hbody.
    + rewrite setitem_decide, decide_True in Hbody by done.
      case_decide; [done|]. right. by simplify_eq.
    + left. simplify_eq. by apply cell_value_Raise_inv in Hv as [-> _].
  - apply IH. eapply Forall_impl; [done|]. simpl. intros t' ?.
    by eapply getitem_is_Some_shape.
Qed.

Lemma fill_array_None_inv data schools years a a' s y g :
  fill_array data schools years a = (a', None) →
  s ∈ schools → y ∈ years → cell_computable data s y g.
Proof.
  intros Hfill [i Hs]%list_elem_of_lookup [j Hy]%list_elem_of_lookup.
  assert (∃ k, grades !! k = Some g) as [k Hg]
    by (destruct g; [by exists 0%nat | by exists 1%nat | by exists 2%nat]).
  destruct (fill_array_cell _ _ _ _ _ i j k s y g Hfill Hs Hy Hg)
    as (v & Hv & Hin & _).
  apply cell_computable_value. by exists v.
Qed.
End construction_facts.

(** X5. Whether [create_enrollment_array] returns or raises, the array it
    leaves in the object has one plane per distinct school name, one row
    per distinct year in every plane and three cells in every row. *)
Theorem create_enrollment_array_shape junk self :
  ∃ a, enrollment_array (create_enrollment_array junk self).1 = Some a ∧
    length a = length (unique (School_Name <$> data self)) ∧
    Forall (λ plane : matrix,
      length plane = length (unique (School_Year <$> data self)) ∧
      Forall (λ row : list Z, length row = 3%nat) plane) a.
Proof.
  rewrite create_enrollment_array_unfold. cbv zeta.
  set (schools := unique (School_Name <$> data self)).
  set (years := unique (School_Year <$> data self)).
  set (a0 := np_empty junk _ _ _).
  pose proof (fill_array_shape (data self) schools years a0) as Hshape.
  assert (shape a0 = replicate (length schools)
                       (replicate (length years) (length grades))) as Ha0
    by apply shape_np_empty.
  rewrite Ha0 in Hshape.
  set (a := (fill_array (data self) schools years a0).1) in *.
  exists a. split; [done|].
  assert (length (shape a) = length a) as Hlen by apply length_fmap.
  rewrite Hshape, length_replicate in Hlen. split; [done|].
  apply Forall_forall. intros plane [i Hi]%list_elem_of_lookup.
  apply shape_lookup in Hi. rewrite Hshape in Hi.
  apply lookup_replicate in Hi as [Hplane _]. split.
  - apply (f_equal length) in Hplane.
    by rewrite length_fmap, length_replicate in Hplane.
  - apply Forall_forall. intros row Hrow.
    assert (length row ∈ length <$> plane) as Hin
      by by apply list_elem_of_fmap_2.
    rewrite Hplane in Hin. by apply elem_of_replicate in Hin as [-> _].
Qed.

(** X6. [create_enrollment_array] returns without raising exactly when every
    cell can be computed: for every school and year of the table and every
    grade, some matching row has the grade value missing, or exactly one row
    matches and its value is in the [int64] range. A school without a row
    for some year, or with two rows for a year and no missing value in some
    grade, makes it raise. *)
Theorem create_enrollment_array_returns_iff junk data :
  (create_enrollment_array junk (SchoolStats_init data)).2 = None ↔
  ∀ s y g, s ∈ unique (School_Name <$> data) →
           y ∈ unique (School_Year <$> data) →
           cell_computable data s y g.
Proof.
  rewrite create_enrollment_array_unfold. cbv zeta. rewrite data_init. simpl.
  split.
  - intros Hnone s y g Hs Hy.
    destruct (fill_array data _ _ _) as [a e] eqn:Hfill. simpl in Hnone.
    subst e. by eapply fill_array_None_inv.
  - intros Hall. apply fill_array_success; [apply shape_np_empty|].
    intros s y g Hs Hy _. by apply cell_computable_value, Hall.
Qed.

(** X7. When [create_enrollment_array] raises, the exception is the
    [TypeError] of [int] on a selection that is not a single row, or the
    [OverflowError] of storing a value outside [int64]: the loop indices
    never leave the array, so no [IndexError], and a missing value is never
    passed to [int]. *)
Theorem create_enrollment_array_raises_only junk self e :
  (create_enrollment_array junk self).2 = Some e →
  e = series_error ∨ e = overflow_error.
Proof.
  rewrite create_enrollment_array_unfold. cbv zeta. simpl.
  rewrite fill_array_flat. apply cells_exn_kind.
  apply Forall_forall. intros t Ht.
  eapply iterations_in_range; [apply shape_np_empty|done].
Qed.

Lemma create_enrollment_array_raises_only_witness :
  TypeError "cannot convert the series to <class 'int'>" = series_error
  ∨ TypeError "cannot convert the series to <class 'int'>" = overflow_error.
Proof.
  apply (create_enrollment_array_raises_only (λ _ _ _, 0) (SchoolStats_init gap)).
  reflexivity.
Defined.

(** X8. In an array that [create_enrollment_array] has returned, every cell
    is either 0, for a school and year with a matching row whose grade value
    is missing, or the grade value of the one row that matches the school
    and year; every cell is in the [int64] range. No other value is ever
    written. *)
Theorem built_cell_provenance junk data self a i j k s y g :
  create_enrollment_array junk (SchoolStats_init data) = (self, None) →
  enrollment_array self = Some a →
  unique (School_Name <$> data) !! i = Some s →
  unique (School_Year <$> data) !! j = Some y →
  grades !! k = Some g →
  ∃ v, getitem a i j k = Some v ∧ in_int64 v ∧
    ((v = 0 ∧ ∃ r, r ∈ matching_rows data s y ∧ grade_column g r = None) ∨
     (∃ r, matching_rows data s y = [r] ∧ grade_column g r = Some v)).
Proof.
  intros (a' & Hself & _ & Hcell)%create_enrollment_array_None Harr Hs Hy Hg.
  assert (a' = a) as -> by (rewrite Hself in Harr; by simplify_eq/=).
  destruct (Hcell i j k s y g Hs Hy Hg) as (v & Hv & Hin & Hget).
  exists v. split_and!; [done..|]. rewrite data_init in Hv.
  by apply cell_value_Ok_inv.
Qed.

Lemma built_cell_provenance_witness :
  ∃ v, getitem [[[400; 420; 600]; [450; 0; 610]]] 0 1 1 = Some v ∧ in_int64 v ∧
    ((v = 0 ∧ ∃ r, r ∈ matching_rows lincoln "Lincoln" 2014 ∧
                   grade_column Grade11 r = None) ∨
     (∃ r, matching_rows lincoln "Lincoln" 2014 = [r] ∧
           grade_column Grade11 r = Some v)).
Proof.
  apply (built_cell_provenance (λ _ _ _, 0) lincoln
           (create_enrollment_array (λ _ _ _, 0) (SchoolStats_init lincoln)).1);
    reflexivity.
Defined.

(** ** The record of one school: what it holds *)

Section school_record_facts.
Implicit Types (self : SchoolStats) (ident : identifier) (m : matrix)
  (l : list Z).

Lemma result_bind_Ok {A B} (f : A → result B) (x : result A) b :
  x ≫= f = Ok b → ∃ a, x = Ok a ∧ f a = Ok b.
Proof. destruct x as [a|e]; [|done]. intros ?. by exists a. Qed.

(** Every field of a returned record, in terms of the slice it was computed
    from. *)
Lemma calculate_school_stats_Ok_inv self ident r :
  calculate_school_stats self ident = Ok r →
  ∃ p a m g10 g11 g12,
    get_school_index self ident = Ok p ∧
    dict_keys (school_codes self) !! p = Some (school_name r) ∧
    dict_getitem (school_codes self) (school_name r) = Some (school_code r) ∧
    enrollment_array self = Some a ∧ a !! p = Some m ∧
    column m 0 = Ok g10 ∧ column m 1 = Ok g11 ∧ column m 2 = Ok g12 ∧
    np_max (mjoin m) = Ok (highest_enrollment r) ∧
    np_min (mjoin m) = Ok (lowest_enrollment r) ∧
    mean_grade_10 r = np_floor (np_mean g10) ∧
    mean_grade_11 r = np_floor (np_mean g11) ∧
    mean_grade_12 r = np_floor (np_mean g12) ∧
    yearly_totals r = np_sum <$> m ∧
    total_enrollment r = np_sum (mjoin m) ∧
    mean_yearly_enrollment r = np_floor (np_mean (np_sum <$> m)) ∧
    enrollments_over_500 r = filter (λ v, 500 < v) (mjoin m) ∧
    ((enrollments_over_500 r = [] ∧ median_over_500 r = inr no_enrollments) ∨
     (enrollments_over_500 r ≠ [] ∧
      ∃ z, int_of_float (np_median (enrollments_over_500 r)) = Ok z ∧
           median_over_500 r = inl z)).
Proof.
  unfold calculate_school_stats, school_slice.
  intros (p & Hidx & H)%result_bind_Ok.
  apply result_bind_Ok in H as (name & Hname & H).
  apply result_bind_Ok in H as (code & Hcode & H).
  apply result_bind_Ok in H as (m & Hm & H).
  apply result_bind_Ok in H as (g10 & H10 & H).
  apply result_bind_Ok in H as (g11 & H11 & H).
  apply result_bind_Ok in H as (g12 & H12 & H).
  apply result_bind_Ok in H as (hi & Hhi & H).
  apply result_bind_Ok in H as (lo & Hlo & H).
  cbv zeta in H. apply result_bind_Ok in H as (med & Hmed & H).
  destruct (dict_keys (school_codes self) !! p) as [name'|] eqn:Hk; [|done].
  destruct (dict_getitem (school_codes self) name) as [code'|] eqn:Hc; [|done].
  destruct (enrollment_array self) as [a|]; [|done].
  destruct (a !! p) as [m'|] eqn:Ha; [|done].
  simplify_eq/=. exists p, a, m, g10, g11, g12.
  split_and!; [done..|].
  destruct (filter (λ v, 500 < v) (mjoin m)) as [|x over] eqn:Hover.
  - left. rewrite decide_False in Hmed by (simpl; lia). by simplify_eq.
  - right. split; [done|]. rewrite decide_True in Hmed by (simpl; lia).
    destruct (int_of_float (np_median (x :: over))) as [z|] eqn:Hz; [|done].
    exists z. by simplify_eq/=.
Qed.

Lemma foldl_max_spec l x :
  x ≤ foldl Z.max x l ∧ Forall (λ y, y ≤ foldl Z.max x l) l ∧
  (foldl Z.max x l = x ∨ foldl Z.max x l ∈ l).
Proof.
  revert x. induction l as [|y l IH]; intros x; simpl.
  - split_and!; [lia | constructor | by left].
  - destruct (IH (Z.max x y)) as (Hle & Hall & Hin). split_and!.
    + lia.
    + constructor; [lia|done].
    + destruct Hin as [->|?]; [|right; by right].
      destruct (Z.max_spec x y) as [[_ ->]|[_ ->]]; [right; left|by left].
Qed.

Lemma foldl_min_spec l x :
  foldl Z.min x l ≤ x ∧ Forall (λ y, foldl Z.min x l ≤ y) l ∧
  (foldl Z.min x l = x ∨ foldl Z.min x l ∈ l).
Proof.
  revert x. induction l as [|y l IH]; intros x; simpl.
  - split_and!; [lia | constructor | by left].
  - destruct (IH (Z.min x y)) as (Hle & Hall & Hin). split_and!.
    + lia.
    + constructor; [lia|done].
    + destruct Hin as [->|?]; [|right; by right].
      destruct (Z.min_spec x y) as [[_ ->]|[_ ->]]; [by left|right; left].
Qed.

Lemma np_max_spec l v :
  np_max l = Ok v → v ∈ l ∧ Forall (λ x, x ≤ v) l.
Proof.
  destruct l as [|x l]; [done|]. intros [= <-].
  destruct (foldl_max_spec l x) as (Hle & Hall & Hin). split.
  - destruct Hin as [->|?]; [left|by right].
  - by constructor.
Qed.

Lemma np_min_spec l v :
  np_min l = Ok v → v ∈ l ∧ Forall (λ x, v ≤ x) l.
Proof.
  destruct l as [|x l]; [done|]. intros [= <-].
  destruct (foldl_min_spec l x) as (Hle & Hall & Hin). split.
  - destruct Hin as [->|?]; [left|by right].
  - by constructor.
Qed.

Lemma wrap64_Zsum_wrap l : wrap64 (Zsum (wrap64 <$> l)) = wrap64 (Zsum l).
Proof.
  induction l as [|x l IH]; csimpl; [done|].
  rewrite wrap64_idemp_l.
  rewrite (Z.add_comm x), <- wrap64_idemp_l, IH, wrap64_idemp_l.
  f_equal. lia.
Qed.

Lemma Zsum_nonneg l : Forall (λ v, 0 ≤ v) l → 0 ≤ Zsum l.
Proof. induction 1; simpl; lia. Qed.

Lemma row_sums_in_range m :
  Forall (λ v, 0 ≤ v) (mjoin m) → in_int64 (Zsum (mjoin m)) →
  Forall (λ row, in_int64 (Zsum row)) m.
Proof.
  induction m as [|row m IH]; csimpl; [constructor|].
  intros [Hrow Hrest]%Forall_app. rewrite Zsum_app. intros Hin.
  pose proof (Zsum_nonneg _ Hrow). pose proof (Zsum_nonneg _ Hrest).
  unfold in_int64, int64_min, int64_max in *.
  constructor; [lia|]. apply IH; [done|]. lia.
Qed.

(** A column of the slice is made of cells of the slice, one per row. *)
Lemma column_spec m c col :
  column m c = Ok col →
  length col = length m ∧ Forall (λ v, v ∈ mjoin m) col.
Proof.
  unfold column. destruct (mapM _ m) as [col'|] eqn:Hcol; [|done].
  intros [= <-]. apply mapM_Some in Hcol. split.
  - symmetry. by eapply Forall2_length.
  - induction Hcol as [|row v m col' Hv _ IH]; csimpl; [constructor|].
    constructor.
    + apply elem_of_app. left. by eapply list_elem_of_lookup_2.
    + eapply Forall_impl; [done|]. simpl. intros ??.
      apply elem_of_app. by right.
Qed.

End school_record_facts.

(** X9. A returned record names the school that was asked for: its
    [school_code] is the code the dictionary holds for its [school_name];
    for a lookup by name the [school_name] is that name, and for a lookup by
    code the [school_code] is that code. *)
Theorem school_record_identity self ident r :
  NoDup (dict_keys (school_codes self)) →
  calculate_school_stats self ident = Ok r →
  dict_getitem (school_codes self) (school_name r) = Some (school_code r) ∧
  match ident with
  | IdStr name => school_name r = name
  | IdInt code => school_code r = code
  end.
Proof.
  intros Hnd (p & a & m & _ & _ & _ & Hidx & Hname & Hcode & _)
    %calculate_school_stats_Ok_inv.
  split; [done|].
  destruct (get_school_index_Ok _ _ _ Hidx) as (name & Hres & Hp).
  assert (name = school_name r) as -> by congruence.
  destruct ident as [code|name'].
  - apply resolved_name_code, dict_getitem_Some in Hres; [|done]. congruence.
  - simpl in Hres. by simplify_eq.
Qed.

Lemma school_record_identity_witness :
  dict_getitem (school_codes lincoln_stats) "Lincoln" = Some 100
  ∧ 100 = 100.
Proof.
  apply (school_record_identity lincoln_stats (IdInt 100)
           {| school_name := "Lincoln"; school_code := 100;
              mean_grade_10 := Some 425; mean_grade_11 := Some 210;
              mean_grade_12 := Some 605;
              highest_enrollment := 610; lowest_enrollment := 0;
              yearly_totals := [1420; 1060]; total_enrollment := 2480;
              mean_yearly_enrollment := Some 1240;
              enrollments_over_500 := [600; 610];
              median_over_500 := inl 605 |}); [by_compute | reflexivity].
Defined.

(** X10. In a returned record there is one yearly total per row of the
    slice, and the total enrollment is the sum of the yearly totals in
    [int64] arithmetic. When the cells of the slice are not negative and
    their sum fits [int64], nothing wraps: every yearly total is the sum of
    its row and the total enrollment is the sum of the yearly totals. *)
Theorem yearly_totals_add_up self ident r :
  calculate_school_stats self ident = Ok r →
  total_enrollment r = wrap64 (Zsum (yearly_totals r)) ∧
  ∃ p a m,
    get_school_index self ident = Ok p ∧
    enrollment_array self = Some a ∧ a !! p = Some m ∧
    length (yearly_totals r) = length m ∧
    (Forall (λ v, 0 ≤ v) (mjoin m) → in_int64 (Zsum (mjoin m)) →
       yearly_totals r = Zsum <$> m ∧
       total_enrollment r = Zsum (yearly_totals r)).
Proof.
  intros (p & a & m & _ & _ & _ & Hidx & _ & _ & Harr & Hm & _ & _ & _ & _ & _
          & _ & _ & _ & Hy & Ht & _)%calculate_school_stats_Ok_inv.
  assert (yearly_totals r = wrap64 <$> (Zsum <$> m)) as Hwrap.
  { rewrite Hy, <- list_fmap_compose. apply list_fmap_ext.
    intros ? row _. apply np_sum_wrap64. }
  split.
  - by rewrite Ht, np_sum_wrap64, Zsum_mjoin, Hwrap, wrap64_Zsum_wrap.
  - exists p, a, m. split_and!; [done..| |].
    + by rewrite Hy, length_fmap.
    + intros Hpos Hfit.
      assert (yearly_totals r = Zsum <$> m) as Hexact.
      { rewrite Hy. apply list_fmap_ext. intros i row Hrow.
        rewrite np_sum_wrap64. apply wrap64_in_range.
        eapply (Forall_lookup_1 _ _ _ _ (row_sums_in_range m Hpos Hfit) Hrow). }
      split; [done|].
      rewrite Ht, np_sum_wrap64, Hexact, <- Zsum_mjoin.
      by apply wrap64_in_range.
Qed.

Lemma yearly_totals_add_up_witness :
  2480 = wrap64 (Zsum [1420; 1060]) ∧
  ∃ p a m,
    get_school_index lincoln_stats (IdStr "Lincoln") = Ok p ∧
    enrollment_array lincoln_stats = Some a ∧ a !! p = Some m ∧
    length [1420; 1060] = length m ∧
    (Forall (λ v, 0 ≤ v) (mjoin m) → in_int64 (Zsum (mjoin m)) →
       [1420; 1060] = Zsum <$> m ∧ 2480 = Zsum [1420; 1060]).
Proof.
  apply (yearly_totals_add_up lincoln_stats (IdStr "Lincoln")
           {| school_name := "Lincoln"; school_code := 100;
              mean_grade_10 := Some 425; mean_grade_11 := Some 210;
              mean_grade_12 := Some 605;
              highest_enrollment := 610; lowest_enrollment := 0;
              yearly_totals := [1420; 1060]; total_enrollment := 2480;
              mean_yearly_enrollment := Some 1240;
              enrollments_over_500 := [600; 610];
              median_over_500 := inl 605 |}); reflexivity.
Defined.

(** X11. In a returned record the highest and the lowest enrollment are
    cells of the slice of the school, and every cell of the slice lies
    between them. *)
Theorem extremes_bound_the_slice self ident r :
  calculate_school_stats self ident = Ok r →
  ∃ p a m,
    get_school_index self ident = Ok p ∧
    enrollment_array self = Some a ∧ a !! p = Some m ∧
    lowest_enrollment r ∈ mjoin m ∧ highest_enrollment r ∈ mjoin m ∧
    Forall (λ v, lowest_enrollment r ≤ v ≤ highest_enrollment r) (mjoin m).
Proof.
  intros (p & a & m & _ & _ & _ & Hidx & _ & _ & Harr & Hm & _ & _ & _
          & [Hhi Hmax]%np_max_spec & [Hlo Hmin]%np_min_spec & _)
    %calculate_school_stats_Ok_inv.
  exists p, a, m. split_and!; [done..|].
  rewrite Forall_forall in Hmax, Hmin. apply Forall_forall. intros v Hv.
  split; [by apply Hmin | by apply Hmax].
Qed.

Lemma extremes_bound_the_slice_witness :
  ∃ p a m,
    get_school_index lincoln_stats (IdStr "Lincoln") = Ok p ∧
    enrollment_array lincoln_stats = Some a ∧ a !! p = Some m ∧
    0 ∈ mjoin m ∧ 610 ∈ mjoin m ∧ Forall (λ v, 0 ≤ v ≤ 610) (mjoin m).
Proof.
  apply (extremes_bound_the_slice lincoln_stats (IdStr "Lincoln")
           {| school_name := "Lincoln"; school_code := 100;
              mean_grade_10 := Some 425; mean_grade_11 := Some 210;
              mean_grade_12 := Some 605;
              highest_enrollment := 610; lowest_enrollment := 0;
              yearly_totals := [1420; 1060]; total_enrollment := 2480;
              mean_yearly_enrollment := Some 1240;
              enrollments_over_500 := [600; 610];
              median_over_500 := inl 605 |}); reflexivity.
Defined.



(** X13. In a returned record no mean is [nan]: the three grade means and
    the mean yearly enrollment are numbers. When no cell of the slice is
    negative and the highest enrollment times the number of years is below
    [2^53], so that the float64 sums of [np.mean] are exact, each grade mean
    lies between the lowest and the highest enrollment of the record. *)
Theorem means_are_numbers_within_extremes self ident r :
  calculate_school_stats self ident = Ok r →
  (is_Some (mean_grade_10 r) ∧ is_Some (mean_grade_11 r) ∧
   is_Some (mean_grade_12 r) ∧ is_Some (mean_yearly_enrollment r)) ∧
  (0 ≤ lowest_enrollment r →
   highest_enrollment r * Z.of_nat (length (yearly_totals r)) < 2 ^ 53 →
   ∃ q10 q11 q12,
     mean_grade_10 r = Some q10 ∧ mean_grade_11 r = Some q11 ∧
     mean_grade_12 r = Some q12 ∧
     lowest_enrollment r ≤ q10 ≤ highest_enrollment r ∧
     lowest_enrollment r ≤ q11 ≤ highest_enrollment r ∧
     lowest_enrollment r ≤ q12 ≤ highest_enrollment r).
Proof.
  intros (p & a & m & g10 & g11 & g12 & _ & _ & _ & _ & _ & H10 & H11 & H12
          & Hmax & Hmin & -> & -> & -> & Hyears & _ & -> & _)
    %calculate_school_stats_Ok_inv.
  assert (m ≠ []) as Hne by (intros ->; done).
  apply np_max_spec in Hmax as [_ Hmax]. apply np_min_spec in Hmin as [_ Hmin].
  rewrite Forall_forall in Hmax, Hmin.
  assert (Hcol : ∀ c col, column m c = Ok col →
            col ≠ [] ∧ length col = length (yearly_totals r) ∧
            Forall (λ v, lowest_enrollment r ≤ v ≤ highest_enrollment r) col).
  { intros c col [Hlen Hcells]%column_spec. split_and!.
    - intros ->. destruct m; [done|]. simpl in Hlen. lia.
    - by rewrite Hyears, length_fmap.
    - eapply Forall_impl; [done|]. simpl. intros v Hv. split; auto. }
  assert (Hnum : ∀ l : list Z, l ≠ [] → is_Some (np_floor (np_mean l))).
  { intros l [q Hq]%np_mean_is_Some. rewrite Hq. by eexists. }
  destruct (Hcol _ _ H10) as (? & Hl10 & ?), (Hcol _ _ H11) as (? & Hl11 & ?),
    (Hcol _ _ H12) as (? & Hl12 & ?).
  split.
  - split_and!; [by apply Hnum..|].
    apply Hnum. by destruct m.
  - intros Hlow Hhigh.
    destruct (np_floor_mean_bounds g10 (lowest_enrollment r)
                (highest_enrollment r)) as (q10 & ? & ?);
      [done | done | done | by rewrite Hl10 |].
    destruct (np_floor_mean_bounds g11 (lowest_enrollment r)
                (highest_enrollment r)) as (q11 & ? & ?);
      [done | done | done | by rewrite Hl11 |].
    destruct (np_floor_mean_bounds g12 (lowest_enrollment r)
                (highest_enrollment r)) as (q12 & ? & ?);
      [done | done | done | by rewrite Hl12 |].
    by exists q10, q11, q12.
Qed.

Lemma means_are_numbers_within_extremes_witness :
  (is_Some (Some 425) ∧ is_Some (Some 210) ∧ is_Some (Some 605) ∧
   is_Some (Some 1240)) ∧
  (0 ≤ 0 → 610 * Z.of_nat (length [1420; 1060]) < 2 ^ 53 →
   ∃ q10 q11 q12,
     Some 425 = Some q10 ∧ Some 210 = Some q11 ∧ Some 605 = Some q12 ∧
     0 ≤ q10 ≤ 610 ∧ 0 ≤ q11 ≤ 610 ∧ 0 ≤ q12 ≤ 610).
Proof.
  apply (means_are_numbers_within_extremes lincoln_stats (IdStr "Lincoln")
           {| school_name := "Lincoln"; school_code := 100;
              mean_grade_10 := Some 425; mean_grade_11 := Some 210;
              mean_grade_12 := Some 605;
              highest_enrollment := 610; lowest_enrollment := 0;
              yearly_totals := [1420; 1060]; total_enrollment := 2480;
              mean_yearly_enrollment := Some 1240;
              enrollments_over_500 := [600; 610];
              median_over_500 := inl 605 |}); reflexivity.
Defined.

(** X14. While the object holds no array, as it does from [__init__] until
    [create_enrollment_array] has run, the statistics of every identifier
    that resolves raise the [TypeError] of subscripting [None], and those of
    an identifier that does not resolve raise the [ValueError] of an
    invalid school. *)
Theorem school_stats_before_construction self ident :
  enrollment_array self = None →
  calculate_school_stats self ident =
    match get_school_index self ident with
    | Ok _ => Raise none_subscript_error
    | Raise _ => Raise invalid_school
    end.
Proof.
  intros Hnone. unfold calculate_school_stats, school_slice.
  destruct (get_school_index self ident) as [p|e] eqn:Hidx; csimpl.
  - destruct (get_school_index_Ok _ _ _ Hidx) as (name & _ & Hp).
    destruct (dict_getitem_is_Some (school_codes self) name)
      as [code Hcode]; [by eapply list_elem_of_lookup_2|].
    rewrite Hp. csimpl. rewrite Hcode. csimpl. by rewrite Hnone.
  - f_equal. by eapply get_school_index_Raise_any.
Qed.

Lemma school_stats_before_construction_witness :
  calculate_school_stats (SchoolStats_init lincoln) (IdStr "Lincoln") =
    match get_school_index (SchoolStats_init lincoln) (IdStr "Lincoln") with
    | Ok _ => Raise none_subscript_error
    | Raise _ => Raise invalid_school
    end.
Proof. apply school_stats_before_construction. reflexivity. Defined.

(** ** The general statistics: when they fail and what they hold *)

Section general_stats_facts.
Implicit Types (data : DataFrame) (a : cube) (l : list Z).

Lemma shape_replicate_lengths a (n m p : nat) :
  shape a = replicate n (replicate m p) →
  length a = n ∧
  Forall (λ plane : matrix,
    length plane = m ∧ Forall (λ row : list Z, length row = p) plane) a.
Proof.
  intros Hshape.
  assert (length (shape a) = length a) as Hlen by apply length_fmap.
  rewrite Hshape, length_replicate in Hlen. split; [done|].
  apply Forall_forall. intros plane [i Hi]%list_elem_of_lookup.
  apply shape_lookup in Hi. rewrite Hshape in Hi.
  apply lookup_replicate in Hi as [Hplane _]. split.
  - apply (f_equal length) in Hplane.
    by rewrite length_fmap, length_replicate in Hplane.
  - apply Forall_forall. intros row Hrow.
    assert (length row ∈ length <$> plane) as Hin
      by by apply list_elem_of_fmap_2.
    rewrite Hplane in Hin. by apply elem_of_replicate in Hin as [-> _].
Qed.

Lemma calculate_general_stats_Ok_inv data a g :
  calculate_general_stats data a = Ok g →
  np_max (mjoin (mjoin a)) = Ok (highest_overall g) ∧
  np_min (mjoin (mjoin a)) = Ok (lowest_overall g) ∧
  mean_2013 g = np_floor (frame_mean (rows_of_year data 2013)) ∧
  mean_2022 g = np_floor (frame_mean (rows_of_year data 2022)) ∧
  total_graduating_2022 g = series_sum (Grade_12 <$> rows_of_year data 2022).
Proof.
  unfold calculate_general_stats. cbv zeta.
  intros (hi & Hhi & (lo & Hlo & H)%result_bind_Ok)%result_bind_Ok.
  by simplify_eq/=.
Qed.

Lemma present_nil (values : list (option Z)) :
  present values = [] ↔ Forall (λ v, v = None) values.
Proof.
  unfold present. induction values as [|[v|] values IH]; csimpl.
  - split; [constructor|done].
  - split; [done|]. by intros [? _]%Forall_cons.
  - rewrite IH. split; [by constructor|]. by intros [_ ?]%Forall_cons.
Qed.

Lemma frame_mean_None data year :
  np_floor (frame_mean (rows_of_year data year)) = None ↔
  Forall (λ r, School_Year r = year →
               Grade_10 r = None ∧ Grade_11 r = None ∧ Grade_12 r = None) data.
Proof.
  unfold frame_mean, np_floor.
  trans (present (grade_values (rows_of_year data year)) = []).
  { destruct (present _); [done|]. split; done. }
  rewrite present_nil. unfold grade_values, rows_of_year.
  induction data as [|r data IH]; csimpl; [split; constructor|].
  rewrite filter_cons. case_decide as Hy; csimpl.
  - rewrite !Forall_cons, IH. naive_solver.
  - rewrite Forall_cons, IH. naive_solver.
Qed.

Lemma rows_of_year_absent data year :
  year ∉ School_Year <$> data → rows_of_year data year = [].
Proof.
  intros Hnot. apply filter_nil_Forall, Forall_forall. intros r Hr Hy.
  destruct Hnot. apply list_elem_of_fmap. by exists r.
Qed.
End general_stats_facts.

(** X15. On the array of a successful construction the general statistics
    fail exactly on the table without rows, with numpy's [ValueError] for the
    maximum of an array of size zero; on any other table they are
    returned. *)
Theorem general_stats_fail_iff_no_rows junk data self a :
  create_enrollment_array junk (SchoolStats_init data) = (self, None) →
  enrollment_array self = Some a →
  (data = [] → calculate_general_stats data a = Raise zero_size_maximum) ∧
  (data ≠ [] → ∃ g, calculate_general_stats data a = Ok g).
Proof.
  intros (a' & Hself & Hshape & _)%create_enrollment_array_None Harr.
  assert (a' = a) as -> by (rewrite Hself in Harr; by simplify_eq/=).
  rewrite data_init in Hshape.
  apply shape_replicate_lengths in Hshape as [Hlen Hplanes]. split.
  - intros ->. simpl in Hlen. apply length_zero_iff_nil in Hlen. by subst a.
  - intros Hne.
    assert (unique (School_Name <$> data) ≠ []) as Hschools.
    { intros Hnil%unique_nil_inv%fmap_nil_inv. done. }
    assert (unique (School_Year <$> data) ≠ []) as Hyears.
    { intros Hnil%unique_nil_inv%fmap_nil_inv. done. }
    assert (mjoin (mjoin a) ≠ []) as Hcells.
    { destruct a as [|plane a]; [by destruct (unique (School_Name <$> data))|].
      apply Forall_cons in Hplanes as [[Hplane Hrows] _].
      destruct plane as [|row plane];
        [by destruct (unique (School_Year <$> data))|].
      apply Forall_cons in Hrows as [Hrow _]. by destruct row. }
    destruct (np_max_Ok _ Hcells) as [hi Hhi], (np_min_Ok _ Hcells) as [lo Hlo].
    unfold calculate_general_stats. cbv zeta. rewrite Hhi. csimpl.
    rewrite Hlo. csimpl. by eexists.
Qed.

Lemma general_stats_fail_iff_no_rows_witness :
  (lincoln = [] →
   calculate_general_stats lincoln [[[400; 420; 600]; [450; 0; 610]]] =
     Raise zero_size_maximum) ∧
  (lincoln ≠ [] →
   ∃ g, calculate_general_stats lincoln [[[400; 420; 600]; [450; 0; 610]]] =
          Ok g).
Proof.
  apply (general_stats_fail_iff_no_rows (λ _ _ _, 0) lincoln lincoln_stats);
    reflexivity.
Defined.

(** X16. The highest and lowest enrollment of the general statistics are
    cells of the array and bound the record of every school computed from
    the same array: no school has a highest enrollment above the overall
    highest or a lowest enrollment below the overall lowest. *)
Theorem overall_extremes_bound_schools self ident a r g :
  enrollment_array self = Some a →
  calculate_school_stats self ident = Ok r →
  calculate_general_stats (data self) a = Ok g →
  highest_overall g ∈ mjoin (mjoin a) ∧ lowest_overall g ∈ mjoin (mjoin a) ∧
  lowest_overall g ≤ lowest_enrollment r ∧
  highest_enrollment r ≤ highest_overall g.
Proof.
  intros Harr (p & a' & m & _ & _ & _ & _ & _ & _ & Harr' & Hm & _ & _ & _
               & [Hhi _]%np_max_spec & [Hlo _]%np_min_spec & _)
    %calculate_school_stats_Ok_inv.
  intros ([Hmax_in Hmax]%np_max_spec & [Hmin_in Hmin]%np_min_spec & _)
    %calculate_general_stats_Ok_inv.
  assert (a' = a) as -> by congruence.
  assert (∀ v, v ∈ mjoin m → v ∈ mjoin (mjoin a)) as Hsub.
  { intros v (row & Hv & Hrow)%list_elem_of_join.
    apply list_elem_of_join. exists row. split; [done|].
    apply list_elem_of_join. exists m. split; [done|].
    by eapply list_elem_of_lookup_2. }
  rewrite Forall_forall in Hmax, Hmin. split_and!; [done..| |].
  - by apply Hmin, Hsub.
  - by apply Hmax, Hsub.
Qed.

Lemma overall_extremes_bound_schools_witness :
  610 ∈ mjoin (mjoin [[[400; 420; 600]; [450; 0; 610]]]) ∧
  0 ∈ mjoin (mjoin [[[400; 420; 600]; [450; 0; 610]]]) ∧
  0 ≤ 0 ∧ 610 ≤ 610.
Proof.
  apply (overall_extremes_bound_schools lincoln_stats (IdStr "Lincoln")
           [[[400; 420; 600]; [450; 0; 610]]]
           {| school_name := "Lincoln"; school_code := 100;
              mean_grade_10 := Some 425; mean_grade_11 := Some 210;
              mean_grade_12 := Some 605;
              highest_enrollment := 610; lowest_enrollment := 0;
              yearly_totals := [1420; 1060]; total_enrollment := 2480;
              mean_yearly_enrollment := Some 1240;
              enrollments_over_500 := [600; 610];
              median_over_500 := inl 605 |}
           {| mean_2013 := Some 473; mean_2022 := None;
              total_graduating_2022 := 0;
              highest_overall := 610; lowest_overall := 0 |}); reflexivity.
Defined.

(** X17. In returned general statistics the mean of 2013 is [nan] exactly
    when no row of 2013 has a grade value that is present, and likewise for
    2022; in particular, on a table without rows of 2022 the mean of 2022 is
    [nan] and the graduating total is 0, whatever other years the table
    holds. *)
Theorem general_stats_of_absent_years data a g :
  calculate_general_stats data a = Ok g →
  (mean_2013 g = None ↔
   Forall (λ r, School_Year r = 2013 →
             Grade_10 r = None ∧ Grade_11 r = None ∧ Grade_12 r = None) data) ∧
  (mean_2022 g = None ↔
   Forall (λ r, School_Year r = 2022 →
             Grade_10 r = None ∧ Grade_11 r = None ∧ Grade_12 r = None) data) ∧
  (2022 ∉ School_Year <$> data →
   mean_2022 g = None ∧ total_graduating_2022 g = 0).
Proof.
  intros (_ & _ & -> & -> & ->)%calculate_general_stats_Ok_inv.
  split_and!; [apply frame_mean_None..|].
  intros Habsent. by rewrite (rows_of_year_absent _ _ Habsent).
Qed.

Lemma general_stats_of_absent_years_witness :
  (Some 473 = None ↔
   Forall (λ r, School_Year r = 2013 →
             Grade_10 r = None ∧ Grade_11 r = None ∧ Grade_12 r = None)
     lincoln) ∧
  (@None Z = None ↔
   Forall (λ r, School_Year r = 2022 →
             Grade_10 r = None ∧ Grade_11 r = None ∧ Grade_12 r = None)
     lincoln) ∧
  (2022 ∉ School_Year <$> lincoln → @None Z = None ∧ 0 = 0).
Proof.
  apply (general_stats_of_absent_years lincoln
           [[[400; 420; 600]; [450; 0; 610]]]
           {| mean_2013 := Some 473; mean_2022 := None;
              total_graduating_2022 := 0;
              highest_overall := 610; lowest_overall := 0 |}).
  reflexivity.
Defined.

(** ** The table and the array agree *)

Section table_and_array.
Implicit Types (data rows : DataFrame) (a : cube) (ks : list string).

Lemma Zsum_Permutation (l1 l2 : list Z) : l1 ≡ₚ l2 → Zsum l1 = Zsum l2.
Proof. induction 1; simpl; lia. Qed.

Lemma series_sum_default rows :
  series_sum (Grade_12 <$> rows) = Zsum ((λ r, default 0 (Grade_12 r)) <$> rows).
Proof.
  unfold series_sum, present.
  induction rows as [|r rows IH]; csimpl; [done|].
  destruct (Grade_12 r); csimpl; lia.
Qed.

Lemma mjoin_app_pointwise {A B} (f g : A → list B) (l : list A) :
  mjoin ((λ x, f x ++ g x) <$> l) ≡ₚ mjoin (f <$> l) ++ mjoin (g <$> l).
Proof.
  induction l as [|x l IH]; csimpl; [done|].
  rewrite IH, <- !(assoc_L (++)). f_equiv.
  rewrite !(assoc_L (++)). f_equiv. apply Permutation_app_comm.
Qed.

Lemma bucket_of_absent_key ks k (Q : Prop) `{Decision Q} (r : Row) :
  k ∉ ks →
  mjoin ((λ s, if decide (k = s ∧ Q) then [r] else []) <$> ks) = [].
Proof.
  induction ks as [|s ks IH]; csimpl; [done|].
  intros [Hne Hnot]%not_elem_of_cons.
  rewrite decide_False by naive_solver. by apply IH.
Qed.

Lemma bucket_of_key ks k (Q : Prop) `{Decision Q} (r : Row) :
  NoDup ks → k ∈ ks →
  mjoin ((λ s, if decide (k = s ∧ Q) then [r] else []) <$> ks) =
    if decide Q then [r] else [].
Proof.
  induction ks as [|s ks IH]; csimpl; [by intros _ ?%elem_of_nil|].
  intros [Hs Hnd]%NoDup_cons [->|Hin]%elem_of_cons.
  - rewrite bucket_of_absent_key by done. rewrite (right_id_L [] (++)).
    repeat case_decide; naive_solver.
  - rewrite decide_False by (intros [-> _]; done). by apply IH.
Qed.

(** The rows of a year are the rows of that year of each school, school by
    school. *)
Lemma rows_of_year_by_school ks rows year :
  NoDup ks → Forall (λ r, School_Name r ∈ ks) rows →
  rows_of_year rows year ≡ₚ mjoin ((λ s, matching_rows rows s year) <$> ks).
Proof.
  intros Hnd. unfold rows_of_year, matching_rows.
  induction 1 as [|r rows Hr _ IH].
  - clear Hnd. induction ks as [|s ks IHks]; [done|]. csimpl in *.
    by rewrite <- IHks.
  - trans (mjoin ((λ s, (if decide (School_Name r = s ∧ School_Year r = year)
                         then [r] else []) ++
                        filter (λ r, School_Name r = s ∧ School_Year r = year)
                          rows) <$> ks)).
    2:{ apply reflexive_eq. f_equal. apply list_fmap_ext. intros _ s _.
        rewrite filter_cons. by case_decide. }
    rewrite mjoin_app_pointwise, <- IH, bucket_of_key by done.
    rewrite filter_cons. by case_decide.
Qed.

Lemma Zsum_fmap_mjoin {A} (h : A → Z) (ls : list (list A)) :
  Zsum (h <$> mjoin ls) = Zsum ((λ l, Zsum (h <$> l)) <$> ls).
Proof.
  induction ls as [|l ls IH]; csimpl; [done|].
  by rewrite fmap_app, Zsum_app, IH.
Qed.

Lemma getitem_plane a i j k (plane : matrix) :
  a !! i = Some plane →
  getitem a i j k = (row ← plane !! j; row !! k).
Proof. unfold getitem. by intros ->. Qed.
End table_and_array.

(** X18. On a table in which every school has exactly one row for every
    year, and in which the Grade 12 values of 2022 are non-negative with a
    sum below [2^53], so that the sum pandas computes, in [int64] or in
    float64, is the exact sum, the graduating total of 2022, which the
    general statistics compute from the table, is the sum of the Grade 12
    cells of the year 2022 over the schools of the array, which [np.sum]
    of these cells gives without wrapping around: the two data sources
    agree. *)
Theorem graduating_total_is_array_sum junk data self a j :
  create_enrollment_array junk (SchoolStats_init data) = (self, None) →
  enrollment_array self = Some a →
  one_row_per_school_year data →
  unique (School_Year <$> data) !! j = Some 2022 →
  Forall (λ v, 0 ≤ v) (present (Grade_12 <$> rows_of_year data 2022)) →
  Zsum (present (Grade_12 <$> rows_of_year data 2022)) < 2 ^ 53 →
  ∃ cells,
    year_grade_slice a j 2 = Some cells ∧
    series_sum (Grade_12 <$> rows_of_year data 2022) = Zsum cells ∧
    np_sum cells = Zsum cells ∧
    ∀ g, calculate_general_stats data a = Ok g →
         total_graduating_2022 g = Zsum cells.
Proof.
  intros (a' & Hself & Hshape & Hcell)%create_enrollment_array_None Harr
    Hone Hyear Hpos Hlt.
  assert (a' = a) as -> by (rewrite Hself in Harr; by simplify_eq/=).
  rewrite data_init in Hshape, Hcell.
  apply shape_replicate_lengths in Hshape as [Hlen _].
  set (schools := unique (School_Name <$> data)) in *.
  set (cell := λ s, Zsum ((λ r, default 0 (Grade_12 r)) <$>
                            matching_rows data s 2022)).
  assert (Hrow : ∀ s, s ∈ schools →
            ∃ r, matching_rows data s 2022 = [r]).
  { intros s Hs. unfold one_row_per_school_year in Hone.
    rewrite Forall_forall in Hone. specialize (Hone s Hs).
    rewrite Forall_forall in Hone.
    specialize (Hone 2022 (list_elem_of_lookup_2 _ _ _ Hyear)).
    destruct (matching_rows data s 2022) as [|r [|??]]; simplify_eq/=.
    by exists r. }
  assert (year_grade_slice a j 2 = Some (cell <$> schools)) as Hslice.
  { apply mapM_Some. apply Forall2_same_length_lookup_2.
    { by rewrite length_fmap. }
    intros i plane v Hplane Hv.
    apply list_lookup_fmap_Some in Hv as (s & -> & Hs).
    rewrite <- (getitem_plane a i j 2 plane Hplane).
    destruct (Hcell i j 2%nat s 2022 Grade12 Hs Hyear eq_refl)
      as (v & Hv & _ & ->).
    destruct (Hrow s) as [r Hr]; [by eapply list_elem_of_lookup_2|].
    rewrite (cell_value_one_row _ _ _ _ r Hr) in Hv. simpl in Hv.
    unfold cell. rewrite Hr. simpl. f_equal. simplify_eq. lia. }
  assert (series_sum (Grade_12 <$> rows_of_year data 2022)
          = Zsum (cell <$> schools)) as Hsum.
  { assert (Forall (λ r, School_Name r ∈ schools) data) as Hnames.
    { apply Forall_forall. intros r Hr. apply elem_of_unique.
      by apply list_elem_of_fmap_2. }
    rewrite series_sum_default.
    rewrite (Zsum_Permutation _ _
      (fmap_Permutation _ _ _
         (rows_of_year_by_school schools data 2022 (NoDup_unique _) Hnames))).
    by rewrite Zsum_fmap_mjoin, <- list_fmap_compose. }
  exists (cell <$> schools). split_and!; [done | done | |].
  - rewrite np_sum_wrap64, <- Hsum. apply wrap64_in_range.
    pose proof (Zsum_nonneg _ Hpos).
    unfold series_sum, in_int64, int64_min, int64_max. lia.
  - intros g (_ & _ & _ & _ & ->)%calculate_general_stats_Ok_inv. done.
Qed.

Lemma graduating_total_is_array_sum_witness :
  ∃ cells,
    year_grade_slice [[[100; 110; 120]]; [[200; 0; 220]]] 0 2 = Some cells ∧
    series_sum (Grade_12 <$> rows_of_year year_2022 2022) = Zsum cells ∧
    np_sum cells = Zsum cells ∧
    ∀ g, calculate_general_stats year_2022
           [[[100; 110; 120]]; [[200; 0; 220]]] = Ok g →
         total_graduating_2022 g = Zsum cells.
Proof.
  apply (graduating_total_is_array_sum (λ _ _ _, 0) year_2022
           (create_enrollment_array (λ _ _ _, 0) (SchoolStats_init year_2022)).1);
    first [reflexivity | by_compute].
Defined.

(** X19. After a successful construction every school of the table has its
    record: the statistics of any name that a row carries are returned, under
    that name and with the last code of the school; and the statistics of
    that code are returned too, with that code (for the first school that
    has it). *)
Theorem every_school_has_a_record junk data self name :
  create_enrollment_array junk (SchoolStats_init data) = (self, None) →
  name ∈ School_Name <$> data →
  ∃ code r r',
    last_code data name = Some code ∧
    calculate_school_stats self (IdStr name) = Ok r ∧
    school_name r = name ∧ school_code r = code ∧
    calculate_school_stats self (IdInt code) = Ok r' ∧
    school_code r' = code.
Proof.
  intros Hcreate Hname.
  pose proof Hcreate as (a0 & Hself & _)%create_enrollment_array_None.
  assert (school_codes self = school_codes (SchoolStats_init data)) as Hcodes
    by by rewrite Hself.
  pose proof (school_codes_NoDup data) as Hnd. rewrite <- Hcodes in Hnd.
  assert (Hrecord : ∀ ident p,
    get_school_index self ident = Ok p →
    ∃ r, calculate_school_stats self ident = Ok r ∧
         dict_keys (school_codes self) !! p = Some (school_name r) ∧
         dict_getitem (school_codes self) (school_name r) = Some (school_code r)).
  { intros ident p Hidx.
    destruct (built_slice _ _ _ _ _ Hcreate Hidx)
      as (a & m & n & c & Harr & Hm & Hkey & Hcode & Hne & Hrows).
    destruct (calculate_school_stats_slice _ _ _ _ _ _ _
                Hidx Hkey Hcode Harr Hm Hne Hrows) as (r & Hr & _).
    exists r. split; [done|].
    apply calculate_school_stats_Ok_inv in Hr
      as (p' & _ & _ & _ & _ & _ & Hidx' & ? & ? & _).
    assert (p' = p) as -> by congruence. by split. }
  assert (name ∈ dict_keys (school_codes self)) as Hkey
    by by rewrite Hcodes, school_codes_keys, elem_of_unique.
  destruct (dict_getitem_is_Some _ _ Hkey) as [code Hcode].
  pose proof Hkey as [p Hp]%list_elem_of_lookup.
  destruct (Hrecord (IdStr name) p) as (r & Hr & Hrname & Hrcode).
  { by apply (get_school_index_resolved _ _ name). }
  assert (school_name r = name) as Hn by congruence.
  assert (school_code r = code) as Hc by congruence.
  (* the code resolves, to the first school that has it *)
  pose proof Hcode as Hin%dict_getitem_Some; [|done].
  destruct (resolved_name_code_is_Some self _ _ Hin) as [name' Hres].
  pose proof Hres as Hin'%resolved_name_code.
  assert (name' ∈ dict_keys (school_codes self)) as [p' Hp']%list_elem_of_lookup.
  { apply list_elem_of_fmap. by exists (name', code). }
  destruct (Hrecord (IdInt code) p') as (r' & Hr' & Hrname' & Hrcode').
  { by apply (get_school_index_resolved _ _ name'). }
  exists code, r, r'. split_and!; [|done..|].
  - by rewrite <- school_codes_getitem, <- Hcodes.
  - apply dict_getitem_Some in Hin'; [|done]. congruence.
Qed.

Lemma every_school_has_a_record_witness :
  ∃ code r r',
    last_code shared_code "Baker" = Some code ∧
    calculate_school_stats
      (create_enrollment_array (λ _ _ _, 0) (SchoolStats_init shared_code)).1
      (IdStr "Baker") = Ok r ∧
    school_name r = "Baker" ∧ school_code r = code ∧
    calculate_school_stats
      (create_enrollment_array (λ _ _ _, 0) (SchoolStats_init shared_code)).1
      (IdInt code) = Ok r' ∧
    school_code r' = code.
Proof.
  apply (every_school_has_a_record (λ _ _ _, 0) shared_code);
    first [reflexivity | by_compute].
Defined.

(** X20. Once the statistics of a school have been returned, the general
    statistics computed on the same object are returned as well: the array
    has at least the cells of that school, so its maximum and minimum
    exist. *)
Theorem general_stats_return_after_school_stats self ident r :
  calculate_school_stats self ident = Ok r →
  ∃ a g, enrollment_array self = Some a ∧
         calculate_general_stats (data self) a = Ok g.
Proof.
  intros (p & a & m & _ & _ & _ & _ & _ & _ & Harr & Hm & _ & _ & _
          & [Hhi _]%np_max_spec & _)%calculate_school_stats_Ok_inv.
  assert (mjoin (mjoin a) ≠ []) as Hcells.
  { apply list_elem_of_join in Hhi as (row & Hv & Hrow). intros Hnil.
    assert (highest_enrollment r ∈ mjoin (mjoin a)) as Hin.
    { apply list_elem_of_join. exists row. split; [done|].
      apply list_elem_of_join. exists m. split; [done|].
      by eapply list_elem_of_lookup_2. }
    rewrite Hnil in Hin. by apply elem_of_nil in Hin. }
  destruct (np_max_Ok _ Hcells) as [hi Hmax], (np_min_Ok _ Hcells) as [lo Hmin].
  exists a. unfold calculate_general_stats. cbv zeta.
  rewrite Hmax. csimpl. rewrite Hmin. csimpl. by eexists.
Qed.

Lemma general_stats_return_after_school_stats_witness :
  ∃ a g, enrollment_array lincoln_stats = Some a ∧
         calculate_general_stats (data lincoln_stats) a = Ok g.
Proof.
  apply (general_stats_return_after_school_stats lincoln_stats (IdStr "Lincoln")
           {| school_name := "Lincoln"; school_code := 100;
              mean_grade_10 := Some 425; mean_grade_11 := Some 210;
              mean_grade_12 := Some 605;
              highest_enrollment := 610; lowest_enrollment := 0;
              yearly_totals := [1420; 1060]; total_enrollment := 2480;
              mean_yearly_enrollment := Some 1240;
              enrollments_over_500 := [600; 610];
              median_over_500 := inl 605 |}); reflexivity.
Defined.
